(** * DoctorJobs: a transactional outbox on top of Prisma

    Shallow embedding of [src/index.ts] (class [DoctorJobs], methods
    [queue] and [run]) together with the collaborators the class is
    wired to in the README: the Prisma client with its [job] and
    [deadLetters] tables and interactive transactions, the fp-ts
    combinators used by [run], and the optional console logger.

    Promises are modelled by the state transformer [Task]: a task, once
    started, runs against the world until its promise settles.  The one
    place where the source starts a promise and does not wait for it (the
    [pipe] inside [run]) is modelled explicitly: [run] hands back the
    started task instead of running it. *)

From Stdlib Require Import String List Arith Bool Lia Permutation Sorted.
From Stdlib Require Import Ascii NArith ZArith DecimalString.
Import ListNotations.
Local Open Scope list_scope.
Local Open Scope string_scope.

Set Implicit Arguments.

(** ** JavaScript values used by the class *)

(** An [Error] object; every thrown value and rejection reason of the
    model is one. *)
Record JsError := mkError { err_name : string; err_message : string }.

(** [new Error(msg)] *)
Definition new_Error (msg : string) : JsError := mkError "Error" msg.

(** [Error.prototype.toString], which is what a template literal
    [`${err}`] calls. *)
Definition Error_toString (e : JsError) : string :=
  if String.eqb (err_name e) EmptyString then err_message e
  else if String.eqb (err_message e) EmptyString then err_name e
  else err_name e ++ ": " ++ err_message e.

(** The [TypeError] of a property access on [undefined]. *)
Definition undefined_property (prop : string) : JsError :=
  mkError "TypeError"
          ("Cannot read properties of undefined (reading '" ++ prop ++ "')").

(** Outcome of a synchronous call. *)
Inductive Completion (A : Type) : Type :=
| Normal (a : A)
| Throw (e : JsError).
Arguments Normal {A} a.
Arguments Throw {A} e.

(** State of a promise once it is settled. *)
Inductive Settled (A : Type) : Type :=
| Fulfilled (a : A)
| Rejected (e : JsError).
Arguments Fulfilled {A} a.
Arguments Rejected {A} e.

Definition is_fulfilled {A} (s : Settled A) : bool :=
  match s with Fulfilled _ => true | Rejected _ => false end.

(** fp-ts [Either]: [E.left] is [inl], [E.right] is [inr]. *)
Definition Either (E A : Type) : Type := (E + A)%type.

(** ** The database *)

(** Rows of the two tables of the README's Prisma schema. *)
Record JobRow := mkJob
  { job_id : string; job_createdAt : nat; job_data : string }.

Record DeadLetterRow := mkDeadLetter
  { dl_id : string; dl_createdAt : nat; dl_data : string }.

Inductive Level := Info | Err.

(** [Input extends { id: string; data: string }]: what [getJob] hands
    out has an [id] and a [data] field. *)
Class JobInput (Input : Type) : Type :=
  { input_id : Input -> string;
    input_data : Input -> string }.

(** [JSON.stringify] on job descriptions. *)
Class Stringify (Jobs : Type) : Type :=
  { JSON_stringify : Jobs -> string }.

Section Outbox.

(** [Business] is whatever else the application keeps in the database,
    [Jobs] the parsed job type of the class, [Input] the row type handed
    out by [getJob] and [DeadLetters] the type of the injected
    dead-letter functions. *)
Context {Business Jobs Input DeadLetters : Type}.
Context {input : JobInput Input} {stringify : Stringify Jobs}.

Record Db := mkDb
  { jobTable : list JobRow;
    deadLetterTable : list DeadLetterRow;
    business : Business;
    clock : nat;        (* now() *)
    nextId : nat }.     (* supply of the cuid() defaults *)

(** Calls the class and its collaborators make; they are recorded, with
    their outcome and the database they leave, in the order they
    complete.  The last one is the README's, in the work it gives to
    [queue]. *)
Inductive Call :=
| JobFindFirst
| JobCreate (data : string)
| JobDelete (id : string)
| DeadLettersCreate (id data : string)
| DeadLettersFindMany
| Commit
| HandleJobs (parsed : Jobs)
| ClientFindUniqueOrThrow (email : string).

Record Step := mkStep { call : Call; ok : bool; post : Db }.

(** The world a task runs against: the database, the outages the store
    is going to have (one flag per request, [true] = the request fails,
    none left = the store is up), the record of calls and the console. *)
Record World := mkWorld
  { db : Db;
    faults : list bool;
    trace : list Step;
    console : list (Level * string) }.

Definition Task (A : Type) : Type := World -> Settled A * World.

Definition ret {A} (a : A) : Task A := fun w => (Fulfilled a, w).

Definition bind {A B} (m : Task A) (k : A -> Task B) : Task B :=
  fun w =>
    match m w with
    | (Fulfilled a, w') => k a w'
    | (Rejected e, w') => (Rejected e, w')
    end.

Notation "x <- m ;; k" := (bind m (fun x => k))
  (at level 61, m at next level, right associativity).
Notation "m ;;; k" := (bind m (fun _ => k))
  (at level 61, right associativity).

(** A synchronous call made inside an async function: a throw rejects
    the function's promise. *)
Definition of_completion {A} (c : Completion A) : Task A :=
  fun w => match c with
           | Normal a => (Fulfilled a, w)
           | Throw e => (Rejected e, w)
           end.

(** *** Prisma client *)

Definition connection_error : JsError :=
  mkError "PrismaClientInitializationError" "Can't reach database server".
Definition record_not_found : JsError :=
  mkError "PrismaClientKnownRequestError" "P2025: Record to delete does not exist.".
Definition unique_constraint : JsError :=
  mkError "PrismaClientKnownRequestError" "P2002: Unique constraint failed on the fields: (`id`)".

Definition set_db (d : Db) (w : World) : World :=
  mkWorld d (faults w) (trace w) (console w).

(** The world after a request [c] that ended with outcome [b] and left
    the database [d]: the outage flag of the request is used up and the
    call is recorded. *)
Definition after (c : Call) (b : bool) (d : Db) (w : World) : World :=
  mkWorld d (tl (faults w)) ((trace w ++ [mkStep c b d])%list) (console w).

(** One request to the store: it fails without touching the database
    during an outage, and otherwise does [f]. *)
Definition request {A} (c : Call) (f : Db -> Settled A * Db) : Task A :=
  fun w =>
    if hd false (faults w)
    then (Rejected connection_error, after c false (db w) w)
    else let (r, d) := f (db w) in (r, after c (is_fulfilled r) d w).

Definition has_job (id : string) (d : Db) : bool :=
  existsb (fun r => String.eqb (job_id r) id) (jobTable d).

Definition has_dead_letter (id : string) (d : Db) : bool :=
  existsb (fun r => String.eqb (dl_id r) id) (deadLetterTable d).

(** The oldest row by [createdAt]; among equals, the one met first. *)
Fixpoint oldest (rows : list JobRow) : option JobRow :=
  match rows with
  | [] => None
  | r :: rest =>
      match oldest rest with
      | None => Some r
      | Some m => if Nat.leb (job_createdAt r) (job_createdAt m) then Some r else Some m
      end
  end.

(** [client.job.findFirst({ orderBy: { createdAt: "asc" } })] *)
Definition job_findFirst : Task (option JobRow) :=
  request JobFindFirst (fun d => (Fulfilled (oldest (jobTable d)), d)).

Definition cuid (n : nat) : string :=
  "c" ++ NilEmpty.string_of_uint (Nat.to_uint n).

(** [tx.job.create({ data: { data } })]: [id] and [createdAt] take
    their defaults. *)
Definition job_create (data : string) : Task unit :=
  request (JobCreate data) (fun d =>
    if has_job (cuid (nextId d)) d then (Rejected unique_constraint, d)
    else (Fulfilled tt,
          mkDb ((jobTable d ++ [mkJob (cuid (nextId d)) (clock d) data])%list)
               (deadLetterTable d) (business d) (S (clock d)) (S (nextId d)))).

(** [client.job.delete({ where: { id } })] *)
Definition job_delete (id : string) : Task unit :=
  request (JobDelete id) (fun d =>
    if has_job id d
    then (Fulfilled tt,
          mkDb (filter (fun r => negb (String.eqb (job_id r) id)) (jobTable d))
               (deadLetterTable d) (business d) (S (clock d)) (nextId d))
    else (Rejected record_not_found, d)).

(** [client.deadLetters.create({ data: { id, data } })] *)
Definition deadLetters_create (id data : string) : Task unit :=
  request (DeadLettersCreate id data) (fun d =>
    if has_dead_letter id d then (Rejected unique_constraint, d)
    else (Fulfilled tt,
          mkDb (jobTable d)
               ((deadLetterTable d ++ [mkDeadLetter id (clock d) data])%list)
               (business d) (S (clock d)) (nextId d))).

(** [client.deadLetters.findMany()] *)
Definition deadLetters_findMany : Task (list DeadLetterRow) :=
  request DeadLettersFindMany (fun d => (Fulfilled (deadLetterTable d), d)).

(** [client.$transaction(body)]: the interactive transaction runs
    [body]; when [body] rejects, or the commit does not go through, the
    database is the one from before the transaction and the promise
    rejects. *)
Definition transaction {A} (body : Task A) : Task A :=
  fun w =>
    match body w with
    | (Rejected e, w') => (Rejected e, set_db (db w) w')
    | (Fulfilled a, w') =>
        match request Commit (fun d => (Fulfilled tt, d)) w' with
        | (Fulfilled _, w'') => (Fulfilled a, w'')
        | (Rejected e, w'') => (Rejected e, set_db (db w) w'')
        end
    end.

(** *** Console *)

Inductive Console := NodeConsole.

Definition console_write (l : Level) (msg : string) (w : World) : World :=
  mkWorld (db w) (faults w) (trace w) ((console w ++ [(l, msg)])%list).

(** *** fp-ts *)

Definition TaskEither (E A : Type) : Type := Task (Either E A).

Definition O_match {A B} (onNone : unit -> B) (onSome : A -> B)
           (o : option A) : B :=
  match o with None => onNone tt | Some a => onSome a end.

Definition TE_fromEither {E A} (e : Either E A) : TaskEither E A := ret e.

Definition TE_chain {E A B} (f : A -> TaskEither E B)
           (ma : TaskEither E A) : TaskEither E B :=
  e <- ma ;;
  match e with
  | inl l => ret (inl l)
  | inr a => f a
  end.

Definition TE_tryCatch {E A} (f : Task A) (onRejected : JsError -> E)
  : TaskEither E A :=
  fun w =>
    match f w with
    | (Fulfilled a, w') => (Fulfilled (inr a), w')
    | (Rejected reason, w') => (Fulfilled (inl (onRejected reason)), w')
    end.

Definition TE_fold {E A B} (onLeft : E -> Task B) (onRight : A -> Task B)
           (ma : TaskEither E A) : Task B :=
  e <- ma ;;
  match e with
  | inl l => onLeft l
  | inr a => onRight a
  end.

Definition pipe {A B} (a : A) (f : A -> B) : B := f a.
Definition flow {A B C} (f : A -> B) (g : B -> C) : A -> C :=
  fun a => g (f a).

(** ** The class *)

(** A job handler (the [handleJobs] argument of [run]) gets the parsed
    job only; what it does, it does to the database. *)
Definition Handler : Type := Jobs -> Db -> Settled unit * Db.

Record DoctorJobs := mkDoctorJobs
  { parseJob : Input -> Completion (Either JsError Jobs);
    getJob : Task (option Input);
    createJob : string -> Task unit;
    createDeadLetter : DeadLetters -> Task unit;
    getDeadLetters : Task (list DeadLetters);
    log : option Console }.

(** The constructor's options; [logger] is optional. *)
Record Options := mkOptions
  { opt_parseJob : Input -> Completion (Either JsError Jobs);
    opt_getJob : Task (option Input);
    opt_createJob : string -> Task unit;
    opt_createDeadLetter : DeadLetters -> Task unit;
    opt_getDeadLetters : Task (list DeadLetters);
    opt_logger : option Console }.

Definition constructor (o : Options) : DoctorJobs :=
  mkDoctorJobs (opt_parseJob o) (opt_getJob o) (opt_createJob o)
               (opt_createDeadLetter o) (opt_getDeadLetters o) (opt_logger o).

(** [this.log.info(msg)] and [this.log.error(msg)] *)
Definition log_info (self : DoctorJobs) (msg : string) : Task unit :=
  fun w =>
    match log self with
    | None => (Rejected (undefined_property "info"), w)
    | Some NodeConsole => (Fulfilled tt, console_write Info msg w)
    end.

Definition log_error (self : DoctorJobs) (msg : string) : Task unit :=
  fun w =>
    match log self with
    | None => (Rejected (undefined_property "error"), w)
    | Some NodeConsole => (Fulfilled tt, console_write Err msg w)
    end.

(** [queue(fn)] *)
Definition queue {A} (self : DoctorJobs) (fn : Task (A * Jobs)) : Task A :=
  transaction
    (r <- fn ;;
     createJob self (JSON_stringify (snd r)) ;;;
     ret (fst r)).

(** [handleJobs(parsed)], recorded. *)
Definition invoke (handleJobs : Handler) (parsed : Jobs) : Task unit :=
  fun w =>
    let (r, d) := handleJobs parsed (db w) in
    (r, mkWorld d (faults w)
                ((trace w ++ [mkStep (HandleJobs parsed) (is_fulfilled r) d])%list)
                (console w)).

(** The two continuations given to [TE.fold] in [run]. *)
Definition onFailure (self : DoctorJobs) (job : Input) (err : JsError)
  : Task unit :=
  log_error self ("An error occured: " ++ Error_toString err) ;;;
  job_delete (input_id job) ;;;
  deadLetters_create (input_id job) (input_data job).

Definition onSuccess (self : DoctorJobs) (job : Input) (_ : unit)
  : Task unit :=
  log_info self ("Finished processing job with id " ++ input_id job) ;;;
  job_delete (input_id job).

(** The task built, and started, in the [Some] branch of [run]. *)
Definition processing (self : DoctorJobs) (handleJobs : Handler)
           (job : Input) (parsed : Either JsError Jobs) : Task unit :=
  pipe (TE_fromEither parsed)
       (flow
          (TE_chain (fun p =>
             TE_tryCatch (invoke handleJobs p)
                         (fun err => new_Error ("handling job failed: "
                                                ++ Error_toString err))))
          (TE_fold (onFailure self job) (onSuccess self job))).

(** [run(handleJobs)].  The value of the outer [pipe] is the promise of
    the started task; [run] neither awaits nor returns it, so its own
    promise is fulfilled as soon as the task is started.  The model
    returns that task along with the settlement of [run]'s promise:
    [None] when nothing was started. *)
Definition run (self : DoctorJobs) (handleJobs : Handler)
  : Task (option (Task unit)) :=
  log_info self "Attempting to find job" ;;;
  found <- getJob self ;;
  pipe found
       (O_match
          (fun _ => log_info self "No job found" ;;; ret None)
          (fun job =>
             log_info self ("Running job with id " ++ input_id job) ;;;
             parsed <- of_completion (parseJob self job) ;;
             ret (Some (processing self handleJobs job parsed)))).

(** One tick of the README's [setInterval] driver: the call to [run],
    then the task it started, run until it settles. *)
Record Cycle := mkCycle
  { returned : Settled unit;            (* the promise [run] returned *)
    detached : option (Settled unit);   (* the promise [run] dropped *)
    final : World }.

Definition run_cycle (self : DoctorJobs) (handleJobs : Handler)
           (w : World) : Cycle :=
  match run self handleJobs w with
  | (Rejected e, w') => mkCycle (Rejected e) None w'
  | (Fulfilled None, w') => mkCycle (Fulfilled tt) None w'
  | (Fulfilled (Some t), w') =>
      let (r, w'') := t w' in mkCycle (Fulfilled tt) (Some r) w''
  end.

(** The [getJob] the README passes in: [findFirst] ordered by
    [createdAt], its [null] turned into [O.none]. *)
Definition getOldestJob : Task (option JobRow) :=
  job <- job_findFirst ;;
  ret (match job with None => None | Some j => Some j end).

(** [n] ticks in a row, each started once the one before is over. *)
Fixpoint run_cycles (self : DoctorJobs) (handleJobs : Handler) (n : nat)
         (w : World) : list Cycle :=
  match n with
  | 0 => []
  | S k =>
      let c := run_cycle self handleJobs w in
      c :: run_cycles self handleJobs k (final c)
  end.

(** ** Observations on the record of calls *)

(** The calls recorded between two worlds. *)
Definition steps_since (w w' : World) : list Step :=
  skipn (length (trace w)) (trace w').

(** The calls of one tick. *)
Definition steps_of (self : DoctorJobs) (handleJobs : Handler) (w : World)
  : list Step :=
  steps_since w (final (run_cycle self handleJobs w)).

Definition is_job_delete (id : string) (s : Step) : bool :=
  match call s with
  | JobDelete i => String.eqb i id
  | _ => false
  end.

Definition is_dead_letter_create (id : string) (s : Step) : bool :=
  match call s with
  | DeadLettersCreate i _ => String.eqb i id
  | _ => false
  end.

(** Calls that change a table or run the handler. *)
Definition is_mutation (s : Step) : bool :=
  match call s with
  | JobCreate _ | JobDelete _ | DeadLettersCreate _ _ | HandleJobs _ => true
  | JobFindFirst | DeadLettersFindMany | Commit
  | ClientFindUniqueOrThrow _ => false
  end.

Definition mutations (steps : list Step) : list Step :=
  filter is_mutation steps.

(** Ids of the job rows deleted, in order. *)
Definition deleted_ids (steps : list Step) : list string :=
  flat_map (fun s => match call s with
                     | JobDelete i => if ok s then [i] else []
                     | _ => []
                     end) steps.

(** Jobs given to the handler, in order. *)
Definition handled (steps : list Step) : list Jobs :=
  flat_map (fun s => match call s with
                     | HandleJobs p => [p]
                     | _ => []
                     end) steps.

(** One job is created before another. *)
Definition older (a b : JobRow) : Prop := job_createdAt a < job_createdAt b.

(** What [n] ticks in a row resolve: for each tick the ids of the job
    rows it deleted and the jobs it gave to the handler. *)
Fixpoint delivered (self : DoctorJobs) (handleJobs : Handler) (n : nat)
         (w : World) : list (list string * list Jobs) :=
  match n with
  | 0 => []
  | S k =>
      (deleted_ids (steps_of self handleJobs w),
       handled (steps_of self handleJobs w))
        :: delivered self handleJobs k (final (run_cycle self handleJobs w))
  end.

(** The world after [n] ticks in a row. *)
Fixpoint after_cycles (self : DoctorJobs) (handleJobs : Handler) (n : nat)
         (w : World) : World :=
  match n with
  | 0 => w
  | S k => after_cycles self handleJobs k (final (run_cycle self handleJobs w))
  end.

(** Among the completed writes that concern job [id], the dead letter
    comes first. *)
Fixpoint created_before_deleted (id : string) (steps : list Step) : bool :=
  match steps with
  | [] => true
  | s :: rest =>
      if ok s && is_dead_letter_create id s then true
      else if ok s && is_job_delete id s then false
      else created_before_deleted id rest
  end.

(** After every call, job [id] is in the queue or among the dead
    letters. *)
Definition never_lost (id : string) (steps : list Step) : bool :=
  forallb (fun s => has_job id (post s) || has_dead_letter id (post s)) steps.


(** The order of the two quarantine writes the specification asks for:
    dead letter first, so that job [id] is never in neither table. *)
Definition dead_letter_first (self : DoctorJobs) (handleJobs : Handler)
           (w : World) (id : string) : Prop :=
  created_before_deleted id (steps_of self handleJobs w) = true /\
  never_lost id (steps_of self handleJobs w) = true.




(** The tasks started so far run until they settle, first started
    first. *)
Fixpoint settle_all (tasks : list (Task unit)) (w : World)
  : list (Settled unit) * World :=
  match tasks with
  | [] => ([], w)
  | t :: rest =>
      let (r, w') := t w in
      let (rs, w'') := settle_all rest w' in
      (r :: rs, w'')
  end.

Definition tasks_of (t : option (Task unit)) : list (Task unit) :=
  match t with Some t => [t] | None => [] end.

Record Awaited := mkAwaited
  { awaited : list (Settled unit);   (* the promises the caller awaited *)
    dropped : list (Settled unit);   (* the promises [run] dropped *)
    at_rest : World }.

(** [await run(h); await run(h)].  Awaiting waits for the promise [run]
    returns, and that one is fulfilled when the task for the fetched
    job has only been started: the second call makes its fetch before
    the first task has got to the store.  The tasks then run, first
    started first.  A call that rejects ends the sequence. *)
Definition two_awaited_runs (self : DoctorJobs) (handleJobs : Handler)
           (w : World) : Awaited :=
  match run self handleJobs w with
  | (Rejected e, w1) => mkAwaited [Rejected e] [] w1
  | (Fulfilled t1, w1) =>
      match run self handleJobs w1 with
      | (Rejected e, w2) =>
          let (ds, w3) := settle_all (tasks_of t1) w2 in
          mkAwaited [Fulfilled tt; Rejected e] ds w3
      | (Fulfilled t2, w2) =>
          let (ds, w3) := settle_all (tasks_of t1 ++ tasks_of t2)%list w2 in
          mkAwaited [Fulfilled tt; Fulfilled tt] ds w3
      end
  end.

(** How a fetched job fails: its payload does not parse, or the handler
    rejects.  [Fails h w parsed err w'] gives the error handed to the
    failure continuation and the world in which that continuation
    starts, for a task started in [w]. *)
Inductive Fails (handleJobs : Handler) (w : World)
  : Either JsError Jobs -> JsError -> World -> Prop :=
| ParseFailure (e : JsError) :
    Fails handleJobs w (inl e) e w
| HandlerFailure (p : Jobs) (reason : JsError) (d : Db) :
    handleJobs p (db w) = (Rejected reason, d) ->
    Fails handleJobs w (inr p)
          (new_Error ("handling job failed: " ++ Error_toString reason))
          (mkWorld d (faults w)
                   ((trace w ++ [mkStep (HandleJobs p) false d])%list)
                   (console w)).


End Outbox.

Arguments Db : clear implicits.
Arguments Call : clear implicits.
Arguments Step : clear implicits.
Arguments World : clear implicits.
Arguments Task : clear implicits.
Arguments TaskEither : clear implicits.
Arguments Handler : clear implicits.
Arguments DoctorJobs : clear implicits.
Arguments Options : clear implicits.
Arguments Cycle : clear implicits.
Arguments Awaited : clear implicits.

(** Rows of the [job] table are what the README's [getJob] hands out. *)
#[export] Instance jobInput_JobRow : JobInput JobRow :=
  {| input_id := job_id; input_data := job_data |}.

(** ** JSON

    [JSON.parse] and [JSON.stringify] are what the README's instance
    puts into, and reads out of, the [data] column. *)

Module Json.

Local Open Scope Z_scope.

(** *** Numbers *)

(** A number is a double, [m * 2^e] with [m < 2^53] and
    [-1074 <= e <= 971] ([m >= 2^52] above [-1074]), or an infinity; a
    zero has its sign, and no text of JSON gives [NaN]. *)
Inductive Number :=
| Finite (negative : bool) (m e : Z)
| Infinite (negative : bool).

(** [p / q] times [10^n], and times [2^n], as a fraction. *)
Definition scale10 (p q n : Z) : Z * Z :=
  if 0 <=? n then (p * 10 ^ n, q) else (p, q * 10 ^ (- n)).

Definition scale2 (p q n : Z) : Z * Z :=
  if 0 <=? n then (p * 2 ^ n, q) else (p, q * 2 ^ (- n)).

(** The double nearest to [p / q], ties to even, for positive [p] and
    [q]: mantissa and exponent, [None] past the largest double. *)
Definition nearest (p q : Z) : option (Z * Z) :=
  let e0 := Z.log2 p - Z.log2 q - 52 in
  let e1 := let (n, d) := scale2 p q (- e0) in
            if n <? 2 ^ 52 * d then e0 - 1 else e0 in
  let e := Z.max e1 (-1074) in
  let (n, d) := scale2 p q (- e) in
  let m := n / d in
  let r := n mod d in
  let m := if (d <? 2 * r) || ((d =? 2 * r) && Z.odd m) then m + 1 else m in
  let (m, e) := if m =? 2 ^ 53 then (2 ^ 52, e + 1) else (m, e) in
  if 971 <? e then None
  else if m =? 0 then Some (0, 0)
  else Some (m, e).

(** The number written [d * 10^n], [d] having [len] digits: what is
    past every double on either side is settled without computing it. *)
Definition of_decimal (negative : bool) (len d n : Z) : Number :=
  if d =? 0 then Finite negative 0 0
  else if 310 <? n then Infinite negative
  else if len + n <? -330 then Finite negative 0 0
  else
    let (p, q) := scale10 d 1 n in
    match nearest p q with
    | Some (m, e) => Finite negative m e
    | None => Infinite negative
    end.

(** *** [Number::toString] *)

(** The least [n] from [n0] on with [p / q < 10^n]. *)
Fixpoint magnitude (fuel : nat) (n0 p q : Z) : Z :=
  match fuel with
  | O => n0
  | S f => let (a, b) := scale10 p q (- n0) in
           if a <? b then n0 else magnitude f (n0 + 1) p q
  end.

(** With [k] digits: the [s] nearest to [m * 2^e] among those with
    [s * 10^(n - k)] read back as [m * 2^e], [n] being the magnitude. *)
Definition with_digits (m e n k : Z) : option (Z * Z) :=
  let (p, q) := scale2 m 1 e in
  let (a, b) := scale10 p q (k - n) in
  let lo := a / b in
  let r := a mod b in
  let reads s n' := let (p', q') := scale10 s 1 (n' - k) in
                    match nearest p' q' with
                    | Some (m', e') => (m' =? m) && (e' =? e)
                    | None => false
                    end in
  let hi := if lo + 1 =? 10 ^ k then (10 ^ (k - 1), n + 1) else (lo + 1, n) in
  let lo_ok := reads lo n in
  let hi_ok := reads (fst hi) (snd hi) in
  if r =? 0 then Some (lo, n)
  else if lo_ok && hi_ok
       then if (2 * r <? b) || ((2 * r =? b) && Z.even lo)
            then Some (lo, n) else Some hi
  else if lo_ok then Some (lo, n)
  else if hi_ok then Some hi
  else None.

(** The fewest digits that read back as the number: [(s, k, n)]. *)
Fixpoint shortest (fuel : nat) (m e n k : Z) : Z * Z * Z :=
  match fuel with
  | O => let (p, q) := scale2 m 1 e in
         let (a, b) := scale10 p q (k - n) in (a / b, k, n)
  | S f => match with_digits m e n k with
           | Some (s, n') => (s, k, n')
           | None => shortest f m e n (k + 1)
           end
  end.

Definition digits_of (n : Z) : string :=
  NilZero.string_of_uint (N.to_uint (Z.to_N n)).

Fixpoint zeros (n : nat) : string :=
  match n with O => EmptyString | S k => String "0" (zeros k) end.

Definition format (s k n : Z) : string :=
  let ds := digits_of s in
  if (k <=? n) && (n <=? 21) then ds ++ zeros (Z.to_nat (n - k))
  else if (0 <? n) && (n <=? 21)
       then String.substring 0 (Z.to_nat n) ds ++ "."
              ++ String.substring (Z.to_nat n) (Z.to_nat (k - n)) ds
  else if (-6 <? n) && (n <=? 0) then "0." ++ zeros (Z.to_nat (- n)) ++ ds
  else
    let x := (if 0 <=? n - 1 then "e+" else "e-") ++ digits_of (Z.abs (n - 1)) in
    if k =? 1 then ds ++ x
    else String.substring 0 1 ds ++ "."
           ++ String.substring 1 (Z.to_nat (k - 1)) ds ++ x.

Definition Number_toString (x : Number) : string :=
  match x with
  | Infinite false => "Infinity"
  | Infinite true => "-Infinity"
  | Finite negative m e =>
      if m =? 0 then "0"
      else
        let (p, q) := scale2 m 1 e in
        let n := magnitude 640 (-324) p q in
        let '(s, k, n') := shortest 17 m e n 1 in
        (if negative then "-" else EmptyString) ++ format s k n'
  end.

Local Open Scope N_scope.

(** The values [JSON.parse] gives and [JSON.stringify] takes.  Strings
    are byte strings (UTF-8). *)
#[warnings="-register-all"]
Inductive Json :=
| JNull
| JBool (b : bool)
| JNumber (x : Number)
| JString (s : string)
| JArray (items : list Json)
| JObject (fields : list (string * Json)).

Definition code (c : ascii) : N := N_of_ascii c.
Definition chr (n : N) : string := String (ascii_of_N n) EmptyString.
Definition dq : string := chr 34.
Definition backslash : string := chr 92.

Definition is_ws (c : ascii) : bool :=
  (code c =? 32) || (code c =? 9) || (code c =? 10) || (code c =? 13).

Definition is_digit (c : ascii) : bool := (48 <=? code c) && (code c <=? 57).

Fixpoint skip_ws (s : string) : string :=
  match s with
  | String c r => if is_ws c then skip_ws r else s
  | EmptyString => s
  end.

(** The digits in front of [s], and what follows them. *)
Fixpoint digits (s : string) : string * string :=
  match s with
  | String c r =>
      if is_digit c then let (d, r') := digits r in (String c d, r')
      else (EmptyString, s)
  | EmptyString => (EmptyString, s)
  end.

Definition number_int (s : string) : option (string * string) :=
  match s with
  | String c r =>
      if code c =? 48 then Some ("0", r)
      else if is_digit c then let (d, r') := digits r in Some (String c d, r')
      else None
  | EmptyString => None
  end.

(** The digits after the point, if there is one. *)
Definition number_frac (s : string) : option (string * string) :=
  match s with
  | String c r =>
      if code c =? 46
      then match digits r with
           | (EmptyString, _) => None
           | (d, r') => Some (d, r')
           end
      else Some (EmptyString, s)
  | EmptyString => Some (EmptyString, s)
  end.

(** Digits read in base ten. *)
Fixpoint decimal (acc : Z) (s : string) : Z :=
  match s with
  | EmptyString => acc
  | String c r => decimal (10 * acc + Z.of_N (code c - 48))%Z r
  end.

(** The exponent, [0] if there is none. *)
Definition number_exp (s : string) : option (Z * string) :=
  match s with
  | String c r =>
      if (code c =? 101) || (code c =? 69)
      then
        let (negative, r1) :=
          match r with
          | String c' r' =>
              if code c' =? 43 then (false, r')
              else if code c' =? 45 then (true, r')
              else (false, r)
          | EmptyString => (false, r)
          end in
        match digits r1 with
        | (EmptyString, _) => None
        | (d, r') =>
            Some (if negative then (- decimal 0 d)%Z else decimal 0 d, r')
        end
      else Some (0%Z, s)
  | EmptyString => Some (0%Z, s)
  end.

Definition number (s : string) : option (Number * string) :=
  let (negative, r0) :=
    match s with
    | String c r => if code c =? 45 then (true, r) else (false, s)
    | EmptyString => (false, s)
    end in
  match number_int r0 with
  | None => None
  | Some (i, r1) =>
      match number_frac r1 with
      | None => None
      | Some (f, r2) =>
          match number_exp r2 with
          | None => None
          | Some (e, r3) =>
              Some (of_decimal negative
                               (Z.of_nat (String.length (i ++ f)))
                               (decimal 0 (i ++ f))
                               (e - Z.of_nat (String.length f))%Z,
                    r3)
          end
      end
  end.

Definition hex_value (c : ascii) : option N :=
  let n := code c in
  if (48 <=? n) && (n <=? 57) then Some (n - 48)
  else if (97 <=? n) && (n <=? 102) then Some (n - 87)
  else if (65 <=? n) && (n <=? 70) then Some (n - 55)
  else None.

Definition hex4 (a b c d : ascii) : option N :=
  match hex_value a, hex_value b, hex_value c, hex_value d with
  | Some x, Some y, Some z, Some t => Some (((x * 16 + y) * 16 + z) * 16 + t)
  | _, _, _, _ => None
  end.

(** What a string literal is made of: a byte of the text, taken as it
    is, or the code unit of a [u] escape. *)
Inductive Unit := Byte (c : ascii) | Escaped (u : N).

(** The inside of a string literal, up to the closing quote. *)
Fixpoint string_units (s : string) : option (list Unit * string) :=
  match s with
  | EmptyString => None
  | String c r =>
      if code c =? 34 then Some ([], r)
      else if code c =? 92 then
        match r with
        | EmptyString => None
        | String e r' =>
            let simple (n : N) :=
              match string_units r' with
              | Some (us, rest) => Some (Byte (ascii_of_N n) :: us, rest)
              | None => None
              end in
            match code e with
            | 34 => simple 34
            | 92 => simple 92
            | 47 => simple 47
            | 98 => simple 8
            | 102 => simple 12
            | 110 => simple 10
            | 114 => simple 13
            | 116 => simple 9
            | 117 =>
                match r' with
                | String h1 (String h2 (String h3 (String h4 r''))) =>
                    match hex4 h1 h2 h3 h4 with
                    | Some u =>
                        match string_units r'' with
                        | Some (us, rest) => Some (Escaped u :: us, rest)
                        | None => None
                        end
                    | None => None
                    end
                | _ => None
                end
            | _ => None
            end
        end
      else if code c <? 32 then None
      else match string_units r with
           | Some (us, rest) => Some (Byte c :: us, rest)
           | None => None
           end
  end.

(** UTF-8 of a code point; a surrogate on its own gets the three bytes
    the same scheme gives it. *)
Definition utf8 (n : N) : string :=
  if n <? 128 then chr n
  else if n <? 2048 then chr (192 + n / 64) ++ chr (128 + n mod 64)
  else if n <? 65536
       then chr (224 + n / 4096) ++ chr (128 + (n / 64) mod 64)
                ++ chr (128 + n mod 64)
       else chr (240 + n / 262144) ++ chr (128 + (n / 4096) mod 64)
                ++ chr (128 + (n / 64) mod 64) ++ chr (128 + n mod 64).

Definition is_high_surrogate (u : N) : bool := (55296 <=? u) && (u <? 56320).
Definition is_low_surrogate (u : N) : bool := (56320 <=? u) && (u <? 57344).

Fixpoint units_string (us : list Unit) : string :=
  match us with
  | [] => EmptyString
  | Byte c :: r => String c (units_string r)
  | Escaped u :: r =>
      match r with
      | Escaped l :: r' =>
          if is_high_surrogate u && is_low_surrogate l
          then utf8 (65536 + (u - 55296) * 1024 + (l - 56320))
                 ++ units_string r'
          else utf8 u ++ units_string r
      | _ => utf8 u ++ units_string r
      end
  end.

Definition string_literal (s : string) : option (string * string) :=
  match s with
  | String c r =>
      if code c =? 34
      then match string_units r with
           | Some (us, rest) => Some (units_string us, rest)
           | None => None
           end
      else None
  | EmptyString => None
  end.

Definition strip_prefix (p s : string) : option string :=
  if String.prefix p s
  then Some (String.substring (String.length p)
                              (String.length s - String.length p) s)
  else None.

(** *** Objects *)

(** A key that is an array index ([0] to [2^32 - 2], written without
    leading zeros): such keys come first in an object, in numeric
    order. *)
Definition is_index (k : string) : bool :=
  match k with
  | EmptyString => false
  | String c r =>
      (fst (digits k) =? k)%string
      && (negb (code c =? 48) || (r =? EmptyString)%string)
      && ((String.length k <? 10)%nat
          || ((String.length k =? 10)%nat
              && match String.compare k "4294967294" with
                 | Gt => false
                 | _ => true
                 end))
  end.

Definition index_le (a b : string) : bool :=
  (String.length a <? String.length b)%nat
  || ((String.length a =? String.length b)%nat
      && match String.compare a b with Gt => false | _ => true end).

Fixpoint insert_index (kv : string * Json) (l : list (string * Json))
  : list (string * Json) :=
  match l with
  | [] => [kv]
  | x :: r => if index_le (fst kv) (fst x) then kv :: l
              else x :: insert_index kv r
  end.

(** Defining property [k]: a property that is there keeps its place
    and takes the new value. *)
Fixpoint define (k : string) (v : Json) (l : list (string * Json))
  : list (string * Json) :=
  match l with
  | [] => [(k, v)]
  | x :: r => if (fst x =? k)%string then (k, v) :: r
              else x :: define k v r
  end.

(** The object with the members [fs], written in this order. *)
Definition object_of (fs : list (string * Json)) : list (string * Json) :=
  let props := fold_left (fun acc kv => define (fst kv) (snd kv) acc) fs [] in
  fold_right insert_index [] (filter (fun kv => is_index (fst kv)) props)
    ++ filter (fun kv => negb (is_index (fst kv))) props.

(** *** [JSON.parse] *)

Fixpoint value (fuel : nat) (s : string) : option (Json * string) :=
  match fuel with
  | O => None
  | S f =>
      match skip_ws s with
      | EmptyString => None
      | String c r as t =>
          match code c with
          | 123 =>
              match skip_ws r with
              | String c' r' =>
                  if code c' =? 125 then Some (JObject [], r')
                  else match members f (String c' r') with
                       | Some (fs, rest) => Some (JObject (object_of fs), rest)
                       | None => None
                       end
              | EmptyString => None
              end
          | 91 =>
              match skip_ws r with
              | String c' r' =>
                  if code c' =? 93 then Some (JArray [], r')
                  else match elements f (String c' r') with
                       | Some (vs, rest) => Some (JArray vs, rest)
                       | None => None
                       end
              | EmptyString => None
              end
          | 34 =>
              match string_literal t with
              | Some (x, rest) => Some (JString x, rest)
              | None => None
              end
          | _ =>
              match strip_prefix "null" t with
              | Some rest => Some (JNull, rest)
              | None =>
              match strip_prefix "true" t with
              | Some rest => Some (JBool true, rest)
              | None =>
              match strip_prefix "false" t with
              | Some rest => Some (JBool false, rest)
              | None =>
              match number t with
              | Some (n, rest) => Some (JNumber n, rest)
              | None => None
              end end end end
          end
      end
  end
with elements (fuel : nat) (s : string) : option (list Json * string) :=
  match fuel with
  | O => None
  | S f =>
      match value f s with
      | None => None
      | Some (v, rest) =>
          match skip_ws rest with
          | String c r =>
              if code c =? 93 then Some ([v], r)
              else if code c =? 44
                   then match elements f r with
                        | Some (vs, rest') => Some (v :: vs, rest')
                        | None => None
                        end
                   else None
          | EmptyString => None
          end
      end
  end
with members (fuel : nat) (s : string)
  : option (list (string * Json) * string) :=
  match fuel with
  | O => None
  | S f =>
      match string_literal (skip_ws s) with
      | None => None
      | Some (k, rest) =>
          match skip_ws rest with
          | String c r =>
              if code c =? 58
              then match value f r with
                   | None => None
                   | Some (v, rest') =>
                       match skip_ws rest' with
                       | String c' r' =>
                           if code c' =? 125 then Some ([(k, v)], r')
                           else if code c' =? 44
                                then match members f r' with
                                     | Some (fs, rest'') =>
                                         Some ((k, v) :: fs, rest'')
                                     | None => None
                                     end
                                else None
                       | EmptyString => None
                       end
                   end
              else None
          | EmptyString => None
          end
      end
  end.

(** [JSON.parse(s)]: the value of the text, [None] for a
    [SyntaxError].  Every call deeper into the text has read a byte, so
    the fuel is never what stops the parser. *)
Definition parse (s : string) : option Json :=
  match value (2 * String.length s + 2)%nat s with
  | Some (v, rest) =>
      match skip_ws rest with
      | EmptyString => Some v
      | _ => None
      end
  | None => None
  end.

(** *** [JSON.stringify] *)

Definition hex_digit (n : N) : string :=
  if n <? 10 then chr (48 + n) else chr (87 + n).

Definition hex4_string (n : N) : string :=
  hex_digit (n / 4096) ++ hex_digit ((n / 256) mod 16)
    ++ hex_digit ((n / 16) mod 16) ++ hex_digit (n mod 16).

(** The inside of a quoted string. *)
Fixpoint quote_chars (s : string) : string :=
  match s with
  | EmptyString => EmptyString
  | String c r =>
      let n := code c in
      if n =? 34 then backslash ++ dq ++ quote_chars r
      else if n =? 92 then backslash ++ backslash ++ quote_chars r
      else if n =? 8 then backslash ++ "b" ++ quote_chars r
      else if n =? 9 then backslash ++ "t" ++ quote_chars r
      else if n =? 10 then backslash ++ "n" ++ quote_chars r
      else if n =? 12 then backslash ++ "f" ++ quote_chars r
      else if n =? 13 then backslash ++ "r" ++ quote_chars r
      else if n <? 32 then backslash ++ "u" ++ hex4_string n ++ quote_chars r
      else
        match r with
        | String c2 (String c3 r') =>
            if (n =? 237) && (160 <=? code c2)
            then backslash ++ "u"
                   ++ hex4_string (53248 + (code c2 - 128) * 64
                                   + (code c3 - 128))
                   ++ quote_chars r'
            else String c (quote_chars r)
        | _ => String c (quote_chars r)
        end
  end.

Definition quote (s : string) : string := dq ++ quote_chars s ++ dq.

Fixpoint join (sep : string) (l : list string) : string :=
  match l with
  | [] => EmptyString
  | [x] => x
  | x :: r => x ++ sep ++ join sep r
  end.

Fixpoint stringify (v : Json) : string :=
  match v with
  | JNull => "null"
  | JBool true => "true"
  | JBool false => "false"
  | JNumber (Infinite _) => "null"
  | JNumber x => Number_toString x
  | JString s => quote s
  | JArray l => "[" ++ join "," (map stringify l) ++ "]"
  | JObject fs =>
      "{" ++ join "," (map (fun kv : string * Json => let (k, x) := kv in
                                      quote k ++ ":" ++ stringify x) fs)
          ++ "}"
  end.

(** *** Reading values *)

(** [v[k]] for a value that is not [null] and a name [k] that no
    prototype has, such as the README's [type], [options] and
    [clientId]: the property of the object itself, [None] being
    [undefined]. *)
Definition prop (k : string) (v : Json) : option Json :=
  match v with
  | JObject fs =>
      match find (fun kv => (fst kv =? k)%string) fs with
      | Some kv => Some (snd kv)
      | None => None
      end
  | _ => None
  end.

Definition not_primitive : JsError :=
  mkError "TypeError" "Cannot convert object to primitive value".

(** What a template literal prints for a value.  An array prints its
    items, joined; an object goes through [Object.prototype.toString],
    unless it has a property [toString] of its own: no value of JSON
    can be called, and [valueOf] gives no primitive either. *)
Fixpoint toString (v : Json) : Completion string :=
  match v with
  | JNull => Normal "null"
  | JBool true => Normal "true"
  | JBool false => Normal "false"
  | JNumber x => Normal (Number_toString x)
  | JString s => Normal s
  | JArray l =>
      let fix items (l : list Json) : Completion (list string) :=
        match l with
        | [] => Normal []
        | x :: r =>
            match match x with
                  | JNull => Normal EmptyString
                  | _ => toString x
                  end with
            | Throw e => Throw e
            | Normal s =>
                match items r with
                | Throw e => Throw e
                | Normal ss => Normal (s :: ss)
                end
            end
        end in
      match items l with
      | Throw e => Throw e
      | Normal ss => Normal (join "," ss)
      end
  | JObject fs =>
      if existsb (fun kv => (fst kv =? "toString")%string) fs
      then Throw not_primitive
      else Normal "[object Object]"
  end.

End Json.

(** ** The README's instance *)

Module Readme.
Import Json.

(** The README's [ParsedJob] is a type of TypeScript and gone at run
    time: its [parseJob] does not validate, so a job is whatever value
    [JSON.parse] gave. *)
Definition ParsedJob : Type := Json.

(** The two shapes of the declared union. *)
Definition SendClientLoginLink (clientId : string) : ParsedJob :=
  JObject [("type", JString "sendClientLoginLink");
           ("options", JObject [("clientId", JString clientId)])].

Definition ReticulateSplines (target : string) : ParsedJob :=
  JObject [("type", JString "reticulateSplines");
           ("options", JObject [("target", JString target)])].

(** Clients and the login tokens made for them. *)
Record Shop := mkShop
  { clients : list (string * string);    (* id, email *)
    loginTokens : list string }.

#[export] Instance stringify_ParsedJob : Stringify ParsedJob :=
  {| JSON_stringify := Json.stringify |}.

(** [JSON.parse(s)], which throws a [SyntaxError] on a text that is not
    JSON.  The message of that error is the engine's own and names the
    offending token; it is kept to its constant part. *)
Definition JSON_parse (s : string) : Completion ParsedJob :=
  match Json.parse s with
  | Some v => Normal v
  | None => Throw (mkError "SyntaxError" "Unexpected token in JSON")
  end.

(** [parseJob] of the README: [E.right(JSON.parse(job.data))]. *)
Definition parseJob (job : JobRow)
  : Completion (Either JsError ParsedJob) :=
  match JSON_parse (job_data job) with
  | Normal j => Normal (inr j)
  | Throw e => Throw e
  end.

Definition is_string (v : option Json) : bool :=
  match v with Some (JString _) => true | _ => false end.

(** A value of the declared union. *)
Definition is_job (v : ParsedJob) : bool :=
  match prop "type" v, prop "options" v with
  | Some (JString t), Some o =>
      (String.eqb t "sendClientLoginLink" && is_string (prop "clientId" o))
      || (String.eqb t "reticulateSplines" && is_string (prop "target" o))
  | _, _ => false
  end.

(** A [parseJob] that parses "slightly better", as the README suggests:
    it turns what it cannot read, or does not know, into a [Left]. *)
Definition strictParseJob (job : JobRow)
  : Completion (Either JsError ParsedJob) :=
  match JSON_parse (job_data job) with
  | Normal j => if is_job j then Normal (inr j)
                else Normal (inl (new_Error "unknown job type"))
  | Throw e => Normal (inl e)
  end.

(** The branch of the handler that sends the login link.
    [getClientById], [createMagicLinkLoginToken] and
    [sendClientLoginLinkEmail] are not in the repository: the client is
    looked up among the clients, [invariant] throws when there is none,
    and a token is recorded for the client. *)
Definition sendLoginLink (clientId : option Json) (d : Db Shop)
  : Settled unit * Db Shop :=
  match clientId with
  | Some (JString c) =>
      if existsb (fun cl => String.eqb (fst cl) c) (clients (business d))
      then (Fulfilled tt,
            mkDb (jobTable d) (deadLetterTable d)
                 (mkShop (clients (business d))
                         (loginTokens (business d) ++ [c])%list)
                 (clock d) (nextId d))
      else (Rejected (new_Error "Invariant failed"), d)
  | _ => (Rejected (new_Error "Invariant failed"), d)
  end.

Definition null_property (prop : string) : JsError :=
  mkError "TypeError"
          ("Cannot read properties of null (reading '" ++ prop ++ "')").

(** What the last branch throws: the [Error] with the job printed into
    its message, or what printing the job throws. *)
Definition unknown_job (job : ParsedJob) : JsError :=
  match toString job with
  | Normal s => new_Error ("found an unknown job " ++ s)
  | Throw e => e
  end.

(** [handleParsedJobs] of the README, on the values [parseJob] can
    hand it. *)
Definition handleParsedJobs : Handler Shop ParsedJob :=
  fun job d =>
    match job with
    | JNull => (Rejected (null_property "type"), d)
    | _ =>
        match prop "type" job with
        | Some (JString t) =>
            if String.eqb t "sendClientLoginLink" then
              match prop "options" job with
              | None => (Rejected (undefined_property "clientId"), d)
              | Some JNull => (Rejected (null_property "clientId"), d)
              | Some o => sendLoginLink (prop "clientId" o) d
              end
            else if String.eqb t "reticulateSplines" then
              (Rejected (new_Error "reticulateSplines is not implemented yet!"),
               d)
            else (Rejected (unknown_job job), d)
        | _ => (Rejected (unknown_job job), d)
        end
    end.

(** The functions the README passes to the constructor. *)
Definition getJob : Task Shop ParsedJob (option JobRow) := getOldestJob.

Definition createJob (data : string) : Task Shop ParsedJob unit :=
  job_create data.

Definition getDeadLetters : Task Shop ParsedJob (list DeadLetterRow) :=
  deadLetters_findMany.

Definition createDeadLetter (job : DeadLetterRow) : Task Shop ParsedJob unit :=
  deadLetters_create (dl_id job) (dl_data job).

(** A dead-letter function that never works. *)
Definition brokenCreateDeadLetter (job : DeadLetterRow)
  : Task Shop ParsedJob unit :=
  fun w => (Rejected (new_Error "dead letters are closed"), w).

Definition options (parse : JobRow -> Completion (Either JsError ParsedJob))
           (logger : option Console)
  : Options Shop ParsedJob JobRow DeadLetterRow :=
  mkOptions parse getJob createJob createDeadLetter getDeadLetters logger.

Definition doctorJob : DoctorJobs Shop ParsedJob JobRow DeadLetterRow :=
  constructor (options parseJob (Some NodeConsole)).

Definition strictDoctorJob : DoctorJobs Shop ParsedJob JobRow DeadLetterRow :=
  constructor (options strictParseJob (Some NodeConsole)).

Definition silentDoctorJob : DoctorJobs Shop ParsedJob JobRow DeadLetterRow :=
  constructor (options parseJob None).




(** Signing a client up: the client row is written and the login link
    is asked for in one transaction. *)
Definition signUp (id email : string)
  : Task Shop ParsedJob (string * ParsedJob) :=
  fun w =>
    if existsb (fun cl => String.eqb (fst cl) id) (clients (business (db w)))
    then (Rejected unique_constraint, w)
    else (Fulfilled (id, SendClientLoginLink id),
          set_db (mkDb (jobTable (db w)) (deadLetterTable (db w))
                       (mkShop (clients (business (db w)) ++ [(id, email)])%list
                               (loginTokens (business (db w))))
                       (clock (db w)) (nextId (db w)))
                 w).

(** Work that writes and then fails. *)
Definition signUpThenFail (id email : string)
  : Task Shop ParsedJob (string * ParsedJob) :=
  fun w =>
    match signUp id email w with
    | (Fulfilled _, w') => (Rejected (new_Error "mail address refused"), w')
    | (Rejected e, w') => (Rejected e, w')
    end.

(** Sample data. *)
Definition shop0 : Shop := mkShop [("abc", "abc@example.org")] [].

Definition world_of (rows : list JobRow) (dead : list DeadLetterRow)
           (outages : list bool) : World Shop ParsedJob :=
  mkWorld (mkDb rows dead shop0 10 0) outages [] [].

Definition login_abc : JobRow :=
  mkJob "j1" 1 (JSON_stringify (SendClientLoginLink "abc")).
Definition splines : JobRow :=
  mkJob "j2" 2 (JSON_stringify (ReticulateSplines "hull")).
Definition garbled : JobRow := mkJob "j3" 3 "not json".
Definition unknown : JobRow := mkJob "j4" 4 "{}".

(** The world in which [getJob] is called, the one it leaves, and the
    one in which the task for [job] is started. *)
Definition asked (w : World Shop ParsedJob) : World Shop ParsedJob :=
  console_write Info "Attempting to find job" w.
Definition fetched (w : World Shop ParsedJob) : World Shop ParsedJob :=
  snd (getJob (asked w)).
Definition started (w : World Shop ParsedJob) (job : JobRow)
  : World Shop ParsedJob :=
  console_write Info ("Running job with id " ++ job_id job) (fetched w).

(** The world the handler leaves when it rejects [parsed]. *)
Definition rejected_in (w : World Shop ParsedJob) (parsed : ParsedJob)
  : World Shop ParsedJob :=
  mkWorld (snd (handleParsedJobs parsed (db w))) (faults w)
          (trace w ++ [mkStep (HandleJobs parsed) false
                              (snd (handleParsedJobs parsed (db w)))])%list
          (console w).

(** Options that differ from the README's in [createDeadLetter] only. *)
Definition brokenOptions : Options Shop ParsedJob JobRow DeadLetterRow :=
  mkOptions parseJob getJob createJob brokenCreateDeadLetter getDeadLetters
            (Some NodeConsole).

End Readme.

(** ** Facts about the store and the runner *)

Unset Implicit Arguments.

Section Facts.

Context {Business Jobs Input DeadLetters : Type}.
Context {input : JobInput Input} {stringify : Stringify Jobs}.

#[local] Arguments String.append : simpl never.
#[local] Arguments job_delete : simpl never.
#[local] Arguments deadLetters_create : simpl never.
#[local] Arguments console_write : simpl never.

Lemma skipn_own_length (A : Type) (l l' : list A) :
  skipn (length l) (l ++ l') = l'.
Proof. induction l; simpl; auto. Qed.

Lemma steps_since_app (w w' : World Business Jobs) (l : list (Step Business Jobs)) :
  trace w' = (trace w ++ l)%list -> steps_since w w' = l.
Proof. unfold steps_since. intros ->. apply skipn_own_length. Qed.

Lemma existsb_filter_out (A : Type) (p : A -> bool) (l : list A) :
  existsb p (filter (fun x => negb (p x)) l) = false.
Proof.
  induction l as [|x l IH]; simpl; auto.
  destruct (p x) eqn:E; simpl; auto. rewrite E. auto.
Qed.

(** What the two resolution writes do, case by case. *)
Lemma job_delete_eq (id : string) (w : World Business Jobs) :
  job_delete id w =
  if hd false (faults w)
  then (Rejected connection_error, after (JobDelete id) false (db w) w)
  else if has_job id (db w)
       then (Fulfilled tt,
             after (JobDelete id) true
                   (mkDb (filter (fun r => negb (String.eqb (job_id r) id))
                                 (jobTable (db w)))
                         (deadLetterTable (db w)) (business (db w))
                         (S (clock (db w))) (nextId (db w))) w)
       else (Rejected record_not_found, after (JobDelete id) false (db w) w).
Proof.
  unfold job_delete, request.
  destruct (hd false (faults w)); auto.
  destruct (has_job id (db w)); auto.
Qed.

Lemma deadLetters_create_eq (id data : string) (w : World Business Jobs) :
  deadLetters_create id data w =
  if hd false (faults w)
  then (Rejected connection_error,
        after (DeadLettersCreate id data) false (db w) w)
  else if has_dead_letter id (db w)
       then (Rejected unique_constraint,
             after (DeadLettersCreate id data) false (db w) w)
       else (Fulfilled tt,
             after (DeadLettersCreate id data) true
                   (mkDb (jobTable (db w))
                         (deadLetterTable (db w)
                            ++ [mkDeadLetter id (clock (db w)) data])%list
                         (business (db w)) (S (clock (db w)))
                         (nextId (db w))) w).
Proof.
  unfold deadLetters_create, request.
  destruct (hd false (faults w)); auto.
  destruct (has_dead_letter id (db w)); auto.
Qed.



(** The tick of a job that fails, up to the two writes. *)
Lemma run_cycle_failure (self : DoctorJobs Business Jobs Input DeadLetters) (h : Handler Business Jobs) (w w2 w4 : World Business Jobs) (job : Input)
      (parsed : Either JsError Jobs) (err : JsError) :
  log self = Some NodeConsole ->
  getJob self (console_write Info "Attempting to find job" w)
    = (Fulfilled (Some job), w2) ->
  parseJob self job = Normal parsed ->
  Fails h (console_write Info ("Running job with id " ++ input_id job) w2)
        parsed err w4 ->
  run_cycle self h w =
  let w5 := console_write Err ("An error occured: " ++ Error_toString err) w4 in
  match job_delete (input_id job) w5 with
  | (Fulfilled _, w6) =>
      let (r, w7) := deadLetters_create (input_id job) (input_data job) w6 in
      mkCycle (Fulfilled tt) (Some r) w7
  | (Rejected e, w6) => mkCycle (Fulfilled tt) (Some (Rejected e)) w6
  end.
Proof.
  intros Hlog Hget Hparse Hfail.
  unfold run_cycle, run, processing, pipe, flow, TE_fold, TE_chain,
    TE_fromEither, TE_tryCatch, invoke, onFailure, O_match, of_completion,
    bind, ret, log_info, log_error.
  rewrite Hlog, Hget, Hparse.
  inversion Hfail as [e | p reason d Hh]; subst; simpl.
  - destruct (job_delete _ _) as [[[]|e'] w6]; auto.
  - unfold console_write in Hh; simpl in Hh. rewrite Hh. simpl.
    destruct (job_delete _ _) as [[[]|e'] w6]; auto.
Qed.

(** The tick of a job that goes through. *)
Lemma run_cycle_success (self : DoctorJobs Business Jobs Input DeadLetters) (h : Handler Business Jobs) (w w2 : World Business Jobs) (job : Input)
      (p : Jobs) (d : Db Business) :
  log self = Some NodeConsole ->
  getJob self (console_write Info "Attempting to find job" w)
    = (Fulfilled (Some job), w2) ->
  parseJob self job = Normal (inr p) ->
  h p (db w2) = (Fulfilled tt, d) ->
  run_cycle self h w =
  let w3 := console_write Info ("Running job with id " ++ input_id job) w2 in
  let w4 := mkWorld d (faults w3)
                    (trace w3 ++ [mkStep (HandleJobs p) true d])%list
                    (console w3) in
  let w5 := console_write Info
              ("Finished processing job with id " ++ input_id job) w4 in
  let (r, w6) := job_delete (input_id job) w5 in
  mkCycle (Fulfilled tt) (Some r) w6.
Proof.
  intros Hlog Hget Hparse Hh.
  unfold run_cycle, run, processing, pipe, flow, TE_fold, TE_chain,
    TE_fromEither, TE_tryCatch, invoke, onSuccess, O_match, of_completion,
    bind, ret, log_info.
  rewrite Hlog, Hget, Hparse. simpl. rewrite Hh. simpl.
  destruct (job_delete _ _) as [[[]|e'] w6]; auto.
Qed.


(** C9. An instance constructed without the optional logger: every call
    to [run] rejects with the [TypeError] of reading [info] off
    [undefined], in the world it was called in: nothing was asked of
    the store, [getJob] included, no handler ran and no task was
    started, whatever the queue holds. *)
Theorem run_without_logger_throws
        (o : Options Business Jobs Input DeadLetters)
        (h : Handler Business Jobs) (w : World Business Jobs) :
  opt_logger o = None ->
  run (constructor o) h w = (Rejected (undefined_property "info"), w) /\
  run_cycle (constructor o) h w
    = mkCycle (Rejected (undefined_property "info")) None w.
Proof.
  intros Hlog.
  assert (E : run (constructor o) h w
              = (Rejected (undefined_property "info"), w)).
  { unfold run, bind, log_info, constructor; simpl. rewrite Hlog. reflexivity. }
  split; [exact E|]. unfold run_cycle. rewrite E. reflexivity.
Qed.

(** C10. Two instances that differ only in the [createDeadLetter]
    passed to the constructor: [run] gives the same settlement, the
    same world and starts the same task, and so does a whole tick.  The
    injected function is never called; the dead letter is written by
    [deadLetters_create] (see [onFailure]). *)
Theorem run_ignores_createDeadLetter
        (o1 o2 : Options Business Jobs Input DeadLetters)
        (h : Handler Business Jobs) (w : World Business Jobs) :
  opt_parseJob o1 = opt_parseJob o2 ->
  opt_getJob o1 = opt_getJob o2 ->
  opt_createJob o1 = opt_createJob o2 ->
  opt_getDeadLetters o1 = opt_getDeadLetters o2 ->
  opt_logger o1 = opt_logger o2 ->
  run (constructor o1) h w = run (constructor o2) h w /\
  run_cycle (constructor o1) h w = run_cycle (constructor o2) h w.
Proof.
  destruct o1, o2; simpl; intros; subst. split; reflexivity.
Qed.


(** C8. A fetched job that parses and whose handler is fulfilled: the
    tick calls the handler and then deletes the job row, and that is
    all; no dead letter is written.  With the store up and the row
    still there, the row is gone afterwards. *)
Theorem success_deletes_job_only
        (self : DoctorJobs Business Jobs Input DeadLetters)
        (h : Handler Business Jobs) (w w2 : World Business Jobs)
        (job : Input) (p : Jobs) (d : Db Business) :
  log self = Some NodeConsole ->
  getJob self (console_write Info "Attempting to find job" w)
    = (Fulfilled (Some job), w2) ->
  parseJob self job = Normal (inr p) ->
  h p (db w2) = (Fulfilled tt, d) ->
  let c := run_cycle self h w in
  returned c = Fulfilled tt /\
  map (@call Business Jobs) (steps_since w2 (final c))
    = [HandleJobs p; JobDelete (input_id job)] /\
  deadLetterTable (db (final c)) = deadLetterTable d /\
  (hd false (faults w2) = false -> has_job (input_id job) d = true ->
   detached c = Some (Fulfilled tt) /\
   has_job (input_id job) (db (final c)) = false /\
   jobTable (db (final c))
     = filter (fun r => negb (String.eqb (job_id r) (input_id job)))
              (jobTable d)).
Proof.
  intros Hlog Hget Hparse Hh c. subst c.
  rewrite (run_cycle_success self h w w2 job p d Hlog Hget Hparse Hh).
  cbv zeta. rewrite job_delete_eq. simpl.
  destruct (hd false (faults w2)) eqn:Hup; simpl.
  - repeat split; try discriminate.
    erewrite steps_since_app; [|simpl; rewrite <- app_assoc; reflexivity].
    reflexivity.
  - destruct (has_job (input_id job) d) eqn:Hrow; simpl.
    + repeat split.
      * erewrite steps_since_app; [|simpl; rewrite <- app_assoc; reflexivity].
        reflexivity.
      * unfold has_job; simpl. apply existsb_filter_out.
    + repeat split; try discriminate.
      erewrite steps_since_app; [|simpl; rewrite <- app_assoc; reflexivity].
      reflexivity.
Qed.

(** C3. A fetched job whose payload parses to a [Left], or whose
    handler rejects: the promise [run] returns is fulfilled all the
    same, and the resolution is done by the task [run] started: with the
    store up for the two writes, the job row there and no dead letter
    of that id yet, the task is fulfilled, the job row is gone and the
    dead letter is in its table. *)
Theorem failures_are_quarantined
        (self : DoctorJobs Business Jobs Input DeadLetters)
        (h : Handler Business Jobs) (w w2 w4 : World Business Jobs)
        (job : Input) (parsed : Either JsError Jobs) (err : JsError) :
  log self = Some NodeConsole ->
  getJob self (console_write Info "Attempting to find job" w)
    = (Fulfilled (Some job), w2) ->
  parseJob self job = Normal parsed ->
  Fails h (console_write Info ("Running job with id " ++ input_id job) w2)
        parsed err w4 ->
  let c := run_cycle self h w in
  returned c = Fulfilled tt /\
  (hd false (faults w4) = false -> hd false (tl (faults w4)) = false ->
   has_job (input_id job) (db w4) = true ->
   has_dead_letter (input_id job) (db w4) = false ->
   detached c = Some (Fulfilled tt) /\
   has_job (input_id job) (db (final c)) = false /\
   has_dead_letter (input_id job) (db (final c)) = true).
Proof.
  intros Hlog Hget Hparse Hfail c. subst c.
  rewrite (run_cycle_failure self h w w2 w4 job parsed err Hlog Hget Hparse Hfail).
  cbv zeta. rewrite job_delete_eq. simpl.
  destruct (hd false (faults w4)) eqn:Hup1; simpl.
  { split; [reflexivity | discriminate]. }
  destruct (has_job (input_id job) (db w4)) eqn:Hrow; simpl.
  2:{ split; [reflexivity | discriminate]. }
  rewrite deadLetters_create_eq. simpl.
  destruct (hd false (tl (faults w4))) eqn:Hup2; simpl.
  { split; [reflexivity | discriminate]. }
  destruct (has_dead_letter (input_id job) (db w4)) eqn:Hdl.
  - unfold has_dead_letter in *. simpl. rewrite Hdl. simpl.
    split; [reflexivity | discriminate].
  - unfold has_dead_letter in *. simpl. rewrite Hdl. simpl.
    split; [reflexivity|]. intros _ _ _ _. repeat split.
    + unfold has_job; simpl. apply existsb_filter_out.
    + rewrite existsb_app. simpl. rewrite String.eqb_refl.
      now rewrite orb_true_r.
Qed.

(** C4. In the quarantine of a job, every dead-letter create the tick
    makes is for the id and the data of the fetched job as [getJob]
    handed them out, and when the task is fulfilled the row added to
    the dead-letter table has that id and that data. *)
Theorem dead_letter_copies_id_and_payload
        (self : DoctorJobs Business Jobs Input DeadLetters)
        (h : Handler Business Jobs) (w w2 w4 : World Business Jobs)
        (job : Input) (parsed : Either JsError Jobs) (err : JsError) :
  log self = Some NodeConsole ->
  getJob self (console_write Info "Attempting to find job" w)
    = (Fulfilled (Some job), w2) ->
  parseJob self job = Normal parsed ->
  Fails h (console_write Info ("Running job with id " ++ input_id job) w2)
        parsed err w4 ->
  let c := run_cycle self h w in
  (forall s i payload,
      In s (steps_since w4 (final c)) ->
      call s = DeadLettersCreate i payload ->
      i = input_id job /\ payload = input_data job) /\
  (detached c = Some (Fulfilled tt) ->
   exists t,
     deadLetterTable (db (final c))
     = (deadLetterTable (db w4)
          ++ [mkDeadLetter (input_id job) t (input_data job)])%list).
Proof.
  intros Hlog Hget Hparse Hfail c. subst c.
  rewrite (run_cycle_failure self h w w2 w4 job parsed err Hlog Hget Hparse Hfail).
  cbv zeta. rewrite job_delete_eq. simpl.
  assert (Hone : forall (b : bool) (d : Db Business)
                         (s : Step Business Jobs) i payload,
             In s [mkStep (JobDelete (input_id job)) b d] ->
             call s = DeadLettersCreate i payload ->
             i = input_id job /\ payload = input_data job).
  { intros b d s i payload [<-|[]]. simpl. discriminate. }
  assert (Htwo : forall (b : bool) (d d' : Db Business)
                         (s : Step Business Jobs) i payload,
             In s [mkStep (JobDelete (input_id job)) true d;
                   mkStep (DeadLettersCreate (input_id job) (input_data job))
                          b d'] ->
             call s = DeadLettersCreate i payload ->
             i = input_id job /\ payload = input_data job).
  { intros b d d' s i payload [<-|[<-|[]]]; simpl; [discriminate|].
    intros E; inversion E; auto. }
  destruct (hd false (faults w4)) eqn:Hup1; simpl.
  { split; [|discriminate]. intros s i payload.
    erewrite steps_since_app; [|simpl; reflexivity]. apply Hone. }
  destruct (has_job (input_id job) (db w4)) eqn:Hrow; simpl.
  2:{ split; [|discriminate]. intros s i payload.
      erewrite steps_since_app; [|simpl; reflexivity]. apply Hone. }
  rewrite deadLetters_create_eq. simpl.
  destruct (hd false (tl (faults w4))) eqn:Hup2; simpl.
  { split; [|discriminate]. intros s i payload.
    erewrite steps_since_app; [|simpl; rewrite <- app_assoc; reflexivity].
    apply Htwo. }
  unfold has_dead_letter. simpl.
  destruct (existsb _ (deadLetterTable (db w4))) eqn:Hdl; simpl.
  - split; [|discriminate]. intros s i payload.
    erewrite steps_since_app; [|simpl; rewrite <- app_assoc; reflexivity].
    apply Htwo.
  - split.
    + intros s i payload.
      erewrite steps_since_app; [|simpl; rewrite <- app_assoc; reflexivity].
      apply Htwo.
    + intros _. eexists. reflexivity.
Qed.

(** C2, as the code has it.  In the quarantine of a job the delete of
    the job row comes first, and the dead-letter create is made only
    once that delete went through.  So the writes of the quarantine are
    either the failed delete alone, or the delete followed by the
    create; after the delete and before the create the job is in the
    queue no more, and the dead-letter table is still the one from
    before. *)
Theorem job_deleted_before_dead_letter
        (self : DoctorJobs Business Jobs Input DeadLetters)
        (h : Handler Business Jobs) (w w2 w4 : World Business Jobs)
        (job : Input) (parsed : Either JsError Jobs) (err : JsError) :
  log self = Some NodeConsole ->
  getJob self (console_write Info "Attempting to find job" w)
    = (Fulfilled (Some job), w2) ->
  parseJob self job = Normal parsed ->
  Fails h (console_write Info ("Running job with id " ++ input_id job) w2)
        parsed err w4 ->
  let c := run_cycle self h w in
  steps_since w4 (final c)
    = [mkStep (JobDelete (input_id job)) false (db w4)] \/
  exists (d : Db Business) (b : bool) (d' : Db Business),
    steps_since w4 (final c)
      = [mkStep (JobDelete (input_id job)) true d;
         mkStep (DeadLettersCreate (input_id job) (input_data job)) b d'] /\
    has_job (input_id job) d = false /\
    deadLetterTable d = deadLetterTable (db w4).
Proof.
  intros Hlog Hget Hparse Hfail c. subst c.
  rewrite (run_cycle_failure self h w w2 w4 job parsed err Hlog Hget Hparse Hfail).
  cbv zeta. rewrite job_delete_eq. simpl.
  destruct (hd false (faults w4)) eqn:Hup1; simpl.
  { left. apply steps_since_app. reflexivity. }
  destruct (has_job (input_id job) (db w4)) eqn:Hrow; simpl.
  2:{ left. apply steps_since_app. reflexivity. }
  right. rewrite deadLetters_create_eq. simpl.
  assert (Hgone : existsb (fun r => String.eqb (job_id r) (input_id job))
                    (filter (fun r => negb (String.eqb (job_id r) (input_id job)))
                            (jobTable (db w4))) = false)
    by apply existsb_filter_out.
  destruct (hd false (tl (faults w4))); [|destruct (has_dead_letter _ _)];
    simpl; do 3 eexists;
    (split;
     [ apply steps_since_app; simpl; rewrite <- app_assoc; reflexivity
     | split; [exact Hgone | reflexivity] ]).
Qed.


(** C1. [queue] is all or nothing.  When the work rejects, [queue]
    rejects with the same error and the database is the one from
    before: no job row and nothing the work wrote.  Whenever [queue]
    rejects, for whatever reason, the database is the one from before.
    When the work is fulfilled with [(data, job)] and the transaction
    goes through, [queue] is fulfilled with [data], and the database is
    the one the work left plus one job row, whose payload is
    [JSON_stringify job]; the last part is for a [createJob] that
    creates the row, as the README's does. *)
Theorem queue_is_atomic (A : Type)
        (self : DoctorJobs Business Jobs Input DeadLetters)
        (fn : Task Business Jobs (A * Jobs)) (w : World Business Jobs) :
  (forall e w1, fn w = (Rejected e, w1) ->
                exists w', queue self fn w = (Rejected e, w') /\ db w' = db w) /\
  (forall e w', queue self fn w = (Rejected e, w') -> db w' = db w) /\
  (forall data job w1,
      createJob self = job_create ->
      fn w = (Fulfilled (data, job), w1) ->
      is_fulfilled (fst (queue self fn w)) = true ->
      exists w',
        queue self fn w = (Fulfilled data, w') /\
        business (db w') = business (db w1) /\
        deadLetterTable (db w') = deadLetterTable (db w1) /\
        jobTable (db w')
        = (jobTable (db w1)
             ++ [mkJob (cuid (nextId (db w1))) (clock (db w1))
                       (JSON_stringify job)])%list).
Proof.
  split; [|split].
  - intros e w1 Hfn. unfold queue, transaction, bind. rewrite Hfn.
    eexists; split; reflexivity.
  - intros e w'. unfold queue, transaction.
    destruct (bind fn _ w) as [[a|e0] w1].
    + destruct (request Commit _ w1) as [[u|e1] w2];
        intros E; inversion E; subst; reflexivity.
    + intros E; inversion E; subst; reflexivity.
  - intros data job w1 Hcreate Hfn.
    unfold queue, transaction, bind, ret. rewrite Hfn, Hcreate. simpl.
    unfold job_create, request.
    destruct (hd false (faults w1)); simpl; [discriminate|].
    destruct (has_job _ (db w1)); simpl; [discriminate|].
    destruct (hd false (tl (faults w1))); simpl; [discriminate|].
    intros _. eexists. split; [reflexivity|]. simpl. auto.
Qed.

End Facts.

(** ** Oldest first *)

Section Ordering.

Context {Business Jobs DeadLetters : Type} {stringify : Stringify Jobs}.

#[local] Arguments String.append : simpl never.
#[local] Arguments console_write : simpl never.

Lemma oldest_in (rows : list JobRow) (m : JobRow) :
  oldest rows = Some m -> In m rows.
Proof.
  revert m. induction rows as [|r rows IH]; simpl; [discriminate|].
  intros m. destruct (oldest rows) as [m'|].
  - destruct (Nat.leb _ _); intros E; inversion E; subst; auto.
  - intros E; inversion E; auto.
Qed.

Lemma oldest_le (rows : list JobRow) (m : JobRow) :
  oldest rows = Some m ->
  forall r, In r rows -> job_createdAt m <= job_createdAt r.
Proof.
  revert m. induction rows as [|r rows IH]; simpl; [discriminate|].
  intros m E x [<-|Hx].
  - destruct (oldest rows) as [m'|].
    + destruct (Nat.leb _ _) eqn:L; inversion E; subst; auto.
      apply Nat.leb_gt in L. lia.
    + inversion E; auto.
  - destruct (oldest rows) as [m'|] eqn:O.
    + specialize (IH m' eq_refl x Hx).
      destruct (Nat.leb _ _) eqn:L; inversion E; subst; auto.
      apply Nat.leb_le in L. lia.
    + destruct rows; [destruct Hx|]. simpl in O.
      destruct (oldest rows); [destruct (Nat.leb _ _)|]; discriminate.
Qed.

Lemma oldest_some (rows : list JobRow) (r : JobRow) :
  In r rows -> exists m, oldest rows = Some m.
Proof.
  destruct rows as [|x rows]; [intros []|]. intros _. simpl.
  destruct (oldest rows); [destruct (Nat.leb _ _)|]; eauto.
Qed.

(** The row created before all others is the one [findFirst] finds,
    wherever it sits in the table. *)
Lemma oldest_of_sorted (r : JobRow) (rest tbl : list JobRow) :
  Forall (older r) rest -> Permutation (r :: rest) tbl ->
  oldest tbl = Some r.
Proof.
  intros Hall Hperm.
  assert (Hr : In r tbl) by (eapply Permutation_in; [exact Hperm | now left]).
  destruct (oldest_some tbl r Hr) as [m Hm].
  pose proof (oldest_le tbl m Hm r Hr) as Hle.
  pose proof (oldest_in tbl m Hm) as Hin.
  apply Permutation_sym in Hperm.
  destruct (Permutation_in _ Hperm Hin) as [<-|Hrest]; [exact Hm|].
  rewrite Forall_forall in Hall. specialize (Hall m Hrest).
  unfold older in Hall. lia.
Qed.

Lemma Permutation_filter_both (A : Type) (f : A -> bool) (l l' : list A) :
  Permutation l l' -> Permutation (filter f l) (filter f l').
Proof.
  induction 1; simpl.
  - constructor.
  - destruct (f x); auto.
  - destruct (f x), (f y); auto using Permutation_refl. constructor.
  - eapply Permutation_trans; eauto.
Qed.

Lemma filter_out_head (r : JobRow) (rest : list JobRow) :
  NoDup (map job_id (r :: rest)) ->
  filter (fun x => negb (String.eqb (job_id x) (job_id r))) (r :: rest) = rest.
Proof.
  simpl. intros Hnd. inversion Hnd as [|i ids Hnotin Hnd']; subst.
  rewrite String.eqb_refl. simpl.
  apply forallb_filter_id. apply forallb_forall. intros x Hx.
  destruct (String.eqb (job_id x) (job_id r)) eqn:E; auto.
  apply String.eqb_eq in E. exfalso. apply Hnotin. rewrite <- E.
  now apply in_map.
Qed.

(** One tick on a queue whose oldest row is [r], with the store up: the
    tick deletes [r] and nothing else, gives the handler the parsed job
    when there is one, and leaves the store up. *)
Lemma run_cycle_oldest_delivers
      (self : DoctorJobs Business Jobs JobRow DeadLetters)
      (h : Handler Business Jobs) (w : World Business Jobs) (r : JobRow)
      (parsed : Either JsError Jobs) :
  log self = Some NodeConsole ->
  getJob self = getOldestJob ->
  parseJob self r = Normal parsed ->
  (forall p d, jobTable (snd (h p d)) = jobTable d) ->
  faults w = [] ->
  oldest (jobTable (db w)) = Some r ->
  returned (run_cycle self h w) = Fulfilled tt /\
  faults (final (run_cycle self h w)) = [] /\
  jobTable (db (final (run_cycle self h w)))
    = filter (fun x => negb (String.eqb (job_id x) (job_id r)))
             (jobTable (db w)) /\
  deleted_ids (steps_of self h w) = [job_id r] /\
  handled (steps_of self h w)
    = match parsed with inr p => [p] | inl _ => [] end.
Proof.
  intros Hlog HgetJ Hp Hkeep Hup Hold.
  assert (Hget : getJob self (console_write Info "Attempting to find job" w)
                 = (Fulfilled (Some r),
                    after JobFindFirst true (db w)
                          (console_write Info "Attempting to find job" w))).
  { rewrite HgetJ. unfold getOldestJob, bind, job_findFirst, request, ret.
    unfold console_write at 1 2. simpl. rewrite Hup, Hold. reflexivity. }
  assert (Hrow : forall d : Db Business, jobTable d = jobTable (db w) ->
                           has_job (job_id r) d = true).
  { intros d Hd. unfold has_job. rewrite Hd. apply existsb_exists.
    exists r. split; [now apply oldest_in | apply String.eqb_refl]. }
  unfold steps_of.
  destruct parsed as [e|p].
  - rewrite (run_cycle_failure self h w _ _ r (inl e) e Hlog Hget Hp
                               (ParseFailure h _ e)).
    cbv zeta. rewrite job_delete_eq.
    unfold console_write, after. simpl. rewrite Hup. simpl.
    rewrite (Hrow (db w) eq_refl).
    rewrite deadLetters_create_eq. simpl.
    destruct (has_dead_letter _ _); simpl; repeat split; auto;
      erewrite steps_since_app
        by (simpl; repeat rewrite <- app_assoc; reflexivity);
      simpl; auto.
  - destruct (h p (db w)) as [[[]|reason] d] eqn:Hh.
    + pose proof (Hkeep p (db w)) as Hd. rewrite Hh in Hd. simpl in Hd.
      rewrite (run_cycle_success self h w _ r p d Hlog Hget Hp Hh).
      cbv zeta. rewrite job_delete_eq.
      unfold console_write, after. simpl. rewrite Hup. simpl.
      rewrite (Hrow d Hd). simpl. rewrite Hd.
      repeat split; auto;
        erewrite steps_since_app
          by (simpl; repeat rewrite <- app_assoc; reflexivity);
        simpl; auto.
    + pose proof (Hkeep p (db w)) as Hd. rewrite Hh in Hd. simpl in Hd.
      pose proof (@HandlerFailure Business Jobs h
                    (console_write Info ("Running job with id " ++ input_id r)
                       (after JobFindFirst true (db w)
                          (console_write Info "Attempting to find job" w)))
                    p reason d Hh) as Hf.
      rewrite (run_cycle_failure self h w _ _ r (inr p) _ Hlog Hget Hp Hf).
      cbv zeta. rewrite job_delete_eq.
      unfold console_write, after. simpl. rewrite Hup. simpl.
      rewrite (Hrow d Hd).
      rewrite deadLetters_create_eq. simpl. rewrite Hd.
      destruct (has_dead_letter _ _); simpl; repeat split; auto;
        erewrite steps_since_app
          by (simpl; repeat rewrite <- app_assoc; reflexivity);
        simpl; auto.
Qed.

(** X15. Ticks resolve the queue oldest first.  A tick is a call of
    [run] together with the task it started, run until it settles, and
    each tick is over before the next begins.  [getJob] is the README's.
    Let the queue hold the jobs [rows], created one after the other, in
    whatever order they sit in the table.  Then as many ticks as there
    are jobs take them in the order of creation: the k-th tick deletes
    the row of the k-th job and no other, and gives the handler that
    job as parsed, once, or nothing when its payload parsed to a
    [Left]; every call of [run] is fulfilled and after the last tick the
    queue is empty.  ([parseJob] returns on these payloads; the handler
    leaves the job table alone; the store is up.) *)
Theorem ticks_resolve_oldest_first
        (self : DoctorJobs Business Jobs JobRow DeadLetters)
        (h : Handler Business Jobs) (rows : list JobRow)
        (w : World Business Jobs) :
  log self = Some NodeConsole ->
  getJob self = getOldestJob ->
  Forall (fun j => exists parsed, parseJob self j = Normal parsed) rows ->
  (forall p d, jobTable (snd (h p d)) = jobTable d) ->
  faults w = [] ->
  NoDup (map job_id rows) ->
  StronglySorted older rows ->
  Permutation rows (jobTable (db w)) ->
  delivered self h (length rows) w
    = map (fun r => ([job_id r],
                     match parseJob self r with
                     | Normal (inr p) => [p]
                     | _ => []
                     end)) rows /\
  Forall (fun c => returned c = Fulfilled tt)
         (run_cycles self h (length rows) w) /\
  jobTable (db (after_cycles self h (length rows) w)) = [].
Proof.
  intros Hlog HgetJ Hparse Hkeep. revert w.
  induction rows as [|r rows IH]; intros w Hup Hnd Hsorted Hperm.
  all: try (apply Forall_cons_iff in Hparse; destruct Hparse as [Hp Hparse];
            specialize (IH Hparse)).
  - simpl. repeat split; auto.
    apply Permutation_nil in Hperm. exact Hperm.
  - apply StronglySorted_inv in Hsorted. destruct Hsorted as [Hsorted Hall].
    pose proof (oldest_of_sorted r rows _ Hall Hperm) as Hold.
    destruct Hp as [parsed Hp].
    destruct (run_cycle_oldest_delivers self h w r parsed
                                        Hlog HgetJ Hp Hkeep Hup Hold)
      as (Hret & Hup' & Htbl & Hdel & Hhandled).
    assert (Hperm' : Permutation rows
                       (jobTable (db (final (run_cycle self h w))))).
    { rewrite Htbl. rewrite <- (filter_out_head r rows Hnd).
      apply Permutation_filter_both. exact Hperm. }
    assert (Hnd' : NoDup (map job_id rows)) by (inversion Hnd; auto).
    destruct (IH _ Hup' Hnd' Hsorted Hperm') as (A & B & C).
    simpl. rewrite Hdel, Hhandled, A, Hp. repeat split; auto.
Qed.

End Ordering.

(** ** The README's instance at work *)

Module Scenarios.
Import Readme.

(** C1 at work: a sign-up whose work fails after writing leaves the
    database alone; a sign-up that goes through leaves the client and
    the job row, and [queue] gives back the client's id. *)
Lemma queue_is_atomic_witness :
  (exists w',
      queue doctorJob (signUpThenFail "xyz" "xyz@example.org")
            (world_of [] [] [])
      = (Rejected (new_Error "mail address refused"), w') /\
      db w' = db (world_of [] [] [])) /\
  (exists w',
      queue doctorJob (signUp "xyz" "xyz@example.org") (world_of [] [] [])
      = (Fulfilled "xyz", w') /\
      clients (business (db w'))
      = [("abc", "abc@example.org"); ("xyz", "xyz@example.org")] /\
      jobTable (db w')
      = [mkJob "c0" 10 (JSON_stringify (SendClientLoginLink "xyz"))]).
Proof.
  split.
  - destruct (queue_is_atomic string doctorJob
                (signUpThenFail "xyz" "xyz@example.org") (world_of [] [] []))
      as (Hthrow & _ & _).
    eapply Hthrow. reflexivity.
  - destruct (queue_is_atomic string doctorJob
                (signUp "xyz" "xyz@example.org") (world_of [] [] []))
      as (_ & _ & Hcommit).
    destruct (Hcommit "xyz" (SendClientLoginLink "xyz")
                      (snd (signUp "xyz" "xyz@example.org" (world_of [] [] [])))
                      eq_refl eq_refl eq_refl)
      as (w' & Hq & Hb & _ & Hj).
    exists w'. split; [exact Hq|]. split; [rewrite Hb; reflexivity|].
    rewrite Hj. reflexivity.
Defined.

(** C2 fails on the code: quarantining the job with the unknown payload
    deletes the job row first, and after that call the job is in
    neither table. *)
Lemma quarantine_deletes_first :
  ~ dead_letter_first strictDoctorJob handleParsedJobs
      (world_of [unknown] [] []) "j4".
Proof.
  unfold dead_letter_first. intros [Horder _].
  vm_compute in Horder. discriminate.
Qed.

(** C2 as amended, at work on the same tick: the delete, then the
    create. *)
Lemma job_deleted_before_dead_letter_witness :
  steps_since (started (world_of [unknown] [] []) unknown)
    (final (run_cycle strictDoctorJob handleParsedJobs
                      (world_of [unknown] [] [])))
    = [mkStep (JobDelete "j4") false
              (db (started (world_of [unknown] [] []) unknown))] \/
  exists (d : Db Shop) (b : bool) (d' : Db Shop),
    steps_since (started (world_of [unknown] [] []) unknown)
      (final (run_cycle strictDoctorJob handleParsedJobs
                        (world_of [unknown] [] [])))
      = [mkStep (JobDelete "j4") true d;
         mkStep (DeadLettersCreate "j4" "{}") b d'] /\
    has_job "j4" d = false /\
    deadLetterTable d
      = deadLetterTable (db (started (world_of [unknown] [] []) unknown)).
Proof.
  exact (job_deleted_before_dead_letter strictDoctorJob handleParsedJobs
           (world_of [unknown] [] []) (fetched (world_of [unknown] [] []))
           (started (world_of [unknown] [] []) unknown) unknown
           (inl (new_Error "unknown job type")) (new_Error "unknown job type")
           eq_refl eq_refl eq_refl (ParseFailure _ _ _)).
Defined.

(** C3 at work: the unknown job type of the specification. *)
Lemma failures_are_quarantined_witness :
  let c := run_cycle strictDoctorJob handleParsedJobs
                     (world_of [unknown] [] []) in
  returned c = Fulfilled tt /\
  detached c = Some (Fulfilled tt) /\
  has_job "j4" (db (final c)) = false /\
  has_dead_letter "j4" (db (final c)) = true.
Proof.
  destruct (failures_are_quarantined strictDoctorJob handleParsedJobs
              (world_of [unknown] [] []) (fetched (world_of [unknown] [] []))
              (started (world_of [unknown] [] []) unknown) unknown
              (inl (new_Error "unknown job type"))
              (new_Error "unknown job type")
              eq_refl eq_refl eq_refl
              ltac:(exact (ParseFailure handleParsedJobs
                             (started (world_of [unknown] [] []) unknown)
                             (new_Error "unknown job type"))))
    as [Hret Hdone].
  split; [exact Hret|].
  apply Hdone; reflexivity.
Defined.

(** C4 at work: the handler of the README rejects the splines job. *)
Lemma dead_letter_copies_id_and_payload_witness :
  exists t,
    deadLetterTable
      (db (final (run_cycle doctorJob handleParsedJobs
                            (world_of [splines] [] []))))
    = [mkDeadLetter "j2" t (JSON_stringify (ReticulateSplines "hull"))].
Proof.
  destruct (dead_letter_copies_id_and_payload doctorJob handleParsedJobs
              (world_of [splines] [] []) (fetched (world_of [splines] [] []))
              (rejected_in (started (world_of [splines] [] []) splines)
                           (ReticulateSplines "hull"))
              splines (inr (ReticulateSplines "hull"))
              (new_Error ("handling job failed: "
                            ++ Error_toString
                                 (new_Error
                                    "reticulateSplines is not implemented yet!")))
              eq_refl eq_refl eq_refl
              ltac:(exact (@HandlerFailure Shop ParsedJob handleParsedJobs
                             (started (world_of [splines] [] []) splines)
                             (ReticulateSplines "hull")
                             (new_Error
                                "reticulateSplines is not implemented yet!")
                             (db (started (world_of [splines] [] []) splines))
                             eq_refl))) as [_ Hrow].
  apply Hrow. reflexivity.
Defined.


(** When the promise [run] returned is fulfilled, the task for the
    fetched job has only been started: the job row is still there. *)
Lemma run_returns_before_resolution :
  exists t w',
    run strictDoctorJob handleParsedJobs (world_of [unknown] [] [])
      = (Fulfilled (Some t), w') /\
    jobTable (db w') = [unknown] /\ deadLetterTable (db w') = [].
Proof. do 2 eexists. split; [reflexivity|]. split; reflexivity. Qed.

(** The same tick, seen from the caller: the promise [run] returned is
    fulfilled, the one it dropped is rejected. *)
Lemma create_failure_is_dropped :
  let c := run_cycle strictDoctorJob handleParsedJobs
                     (world_of [unknown] [] [false; false; true]) in
  returned c = Fulfilled tt /\
  detached c = Some (Rejected connection_error) /\
  jobTable (db (final c)) = [] /\
  deadLetterTable (db (final c)) = [].
Proof. vm_compute. repeat split. Qed.




(** C7 on the code.  Three jobs, [j1] the oldest, and two calls of
    [run], each awaited before the next.  Both calls are fulfilled and
    both fetch [j1]: the handler gets [j1] twice, the first task
    deletes its row, the second finds the row gone and is rejected, and
    [j2], which the second call should have taken, has not been
    fetched. *)
Theorem awaited_runs_handle_first_job_twice :
  let o := two_awaited_runs doctorJob handleParsedJobs
             (world_of [splines; unknown; login_abc] [] []) in
  awaited o = [Fulfilled tt; Fulfilled tt] /\
  handled (trace (at_rest o))
    = [SendClientLoginLink "abc"; SendClientLoginLink "abc"] /\
  map (fun s => (call s, ok s)) (trace (at_rest o))
    = [(JobFindFirst, true);
       (JobFindFirst, true);
       (HandleJobs (SendClientLoginLink "abc"), true);
       (JobDelete "j1", true);
       (HandleJobs (SendClientLoginLink "abc"), true);
       (JobDelete "j1", false)] /\
  dropped o = [Fulfilled tt; Rejected record_not_found] /\
  jobTable (db (at_rest o)) = [splines; unknown].
Proof. vm_compute. repeat split. Qed.

(** C8 at work: the login link of the specification's scenario. *)
Lemma success_deletes_job_only_witness :
  let c := run_cycle doctorJob handleParsedJobs
                     (world_of [login_abc] [] []) in
  returned c = Fulfilled tt /\
  map (@call Shop ParsedJob)
      (steps_since (fetched (world_of [login_abc] [] [])) (final c))
    = [HandleJobs (SendClientLoginLink "abc"); JobDelete "j1"] /\
  deadLetterTable (db (final c)) = [] /\
  has_job "j1" (db (final c)) = false.
Proof.
  pose proof (success_deletes_job_only doctorJob handleParsedJobs
                (world_of [login_abc] [] [])
                (fetched (world_of [login_abc] [] []))
                login_abc (SendClientLoginLink "abc")
                (snd (handleParsedJobs (SendClientLoginLink "abc")
                        (db (world_of [login_abc] [] []))))
                eq_refl eq_refl eq_refl eq_refl) as Hs.
  cbv zeta in Hs. destruct Hs as (Hret & Hsteps & Hdl & Hrow).
  destruct (Hrow eq_refl eq_refl) as (_ & Hgone & _).
  cbv zeta. repeat split; assumption.
Defined.

(** C9 at work: no logger, a job waiting. *)
Lemma run_without_logger_throws_witness :
  run silentDoctorJob handleParsedJobs (world_of [login_abc] [] [])
    = (Rejected (undefined_property "info"), world_of [login_abc] [] []).
Proof.
  apply (run_without_logger_throws (options Readme.parseJob None)
           handleParsedJobs (world_of [login_abc] [] []) eq_refl).
Defined.

(** C10 at work: a [createDeadLetter] that never works changes
    nothing, not even for a job that ends as a dead letter. *)
Lemma run_ignores_createDeadLetter_witness :
  run_cycle doctorJob handleParsedJobs (world_of [splines] [] [])
    = run_cycle (constructor brokenOptions) handleParsedJobs
                (world_of [splines] [] []) /\
  has_dead_letter "j2"
    (db (final (run_cycle (constructor brokenOptions) handleParsedJobs
                          (world_of [splines] [] [])))) = true.
Proof.
  split; [|reflexivity].
  apply (run_ignores_createDeadLetter
           (options Readme.parseJob (Some NodeConsole)) brokenOptions
           handleParsedJobs (world_of [splines] [] [])
           eq_refl eq_refl eq_refl eq_refl eq_refl).
Defined.

End Scenarios.

(** ** More on the runner *)

Section Runner.

Context {Business Jobs Input DeadLetters : Type}.
Context {input : JobInput Input} {stringify : Stringify Jobs}.

#[local] Arguments String.append : simpl never.
#[local] Arguments job_delete : simpl never.
#[local] Arguments deadLetters_create : simpl never.
#[local] Arguments console_write : simpl never.

(** The tick of a job on which [parseJob] throws. *)
Lemma run_cycle_parse_throw
      (self : DoctorJobs Business Jobs Input DeadLetters)
      (h : Handler Business Jobs) (w w2 : World Business Jobs)
      (job : Input) (e : JsError) :
  log self = Some NodeConsole ->
  getJob self (console_write Info "Attempting to find job" w)
    = (Fulfilled (Some job), w2) ->
  parseJob self job = Throw e ->
  run_cycle self h w
  = mkCycle (Rejected e) None
            (console_write Info ("Running job with id " ++ input_id job) w2).
Proof.
  intros Hlog Hget Hparse.
  unfold run_cycle, run, pipe, O_match, of_completion, bind, ret, log_info.
  rewrite Hlog, Hget, Hparse. reflexivity.
Qed.

(** X1. A [parseJob] that throws on the fetched job, instead of
    returning a [Left]: the promise [run] returns rejects with what was
    thrown, no task is started, and between the fetch and the end of
    the tick nothing is asked of the store and the handler is not
    called; the job is not quarantined. *)
Theorem throwing_parser_rejects_run
        (self : DoctorJobs Business Jobs Input DeadLetters)
        (h : Handler Business Jobs) (w w2 : World Business Jobs)
        (job : Input) (e : JsError) :
  log self = Some NodeConsole ->
  getJob self (console_write Info "Attempting to find job" w)
    = (Fulfilled (Some job), w2) ->
  parseJob self job = Throw e ->
  let c := run_cycle self h w in
  returned c = Rejected e /\
  detached c = None /\
  db (final c) = db w2 /\
  steps_since w2 (final c) = [].
Proof.
  intros Hlog Hget Hparse c. subst c.
  rewrite (run_cycle_parse_throw self h w w2 job e Hlog Hget Hparse).
  simpl. repeat split.
  apply steps_since_app. simpl. now rewrite app_nil_r.
Qed.

(** X3. A payload that parses to a [Left]: the handler is not called,
    and the error logged is the parser's own. *)
Theorem parse_failure_skips_handler
        (self : DoctorJobs Business Jobs Input DeadLetters)
        (h : Handler Business Jobs) (w w2 : World Business Jobs)
        (job : Input) (e : JsError) :
  log self = Some NodeConsole ->
  getJob self (console_write Info "Attempting to find job" w)
    = (Fulfilled (Some job), w2) ->
  parseJob self job = Normal (inl e) ->
  let c := run_cycle self h w in
  handled (steps_since w2 (final c)) = [] /\
  console (final c)
  = app (console w2)
        [(Info, "Running job with id " ++ input_id job);
         (Err, "An error occured: " ++ Error_toString e)].
Proof.
  intros Hlog Hget Hparse c. subst c.
  rewrite (run_cycle_failure self h w w2 _ job (inl e) e Hlog Hget Hparse
                             (ParseFailure h _ e)).
  cbv zeta. rewrite job_delete_eq.
  unfold console_write, after. simpl.
  destruct (hd false (faults w2)); simpl.
  { split; [|now rewrite <- app_assoc].
    erewrite steps_since_app by (simpl; reflexivity). reflexivity. }
  destruct (has_job (input_id job) (db w2)); simpl.
  2:{ split; [|now rewrite <- app_assoc].
      erewrite steps_since_app by (simpl; reflexivity). reflexivity. }
  rewrite deadLetters_create_eq. simpl.
  destruct (hd false (tl (faults w2))); [|destruct (has_dead_letter _ _)];
    simpl; (split; [|now rewrite <- app_assoc]);
    erewrite steps_since_app
      by (simpl; rewrite <- app_assoc; reflexivity);
    reflexivity.
Qed.

(** X4. [run] puts no transaction around the handler: whatever the
    handler wrote before it was fulfilled or rejected is still there at
    the end of the tick, whether the resolution writes go through or
    not; and the handler was called once. *)
Theorem handler_writes_are_kept
        (self : DoctorJobs Business Jobs Input DeadLetters)
        (h : Handler Business Jobs) (w w2 : World Business Jobs)
        (job : Input) (p : Jobs) (r : Settled unit) (d : Db Business) :
  log self = Some NodeConsole ->
  getJob self (console_write Info "Attempting to find job" w)
    = (Fulfilled (Some job), w2) ->
  parseJob self job = Normal (inr p) ->
  h p (db w2) = (r, d) ->
  let c := run_cycle self h w in
  handled (steps_since w2 (final c)) = [p] /\
  business (db (final c)) = business d.
Proof.
  intros Hlog Hget Hparse Hh c. subst c.
  destruct r as [[]|reason].
  - rewrite (run_cycle_success self h w w2 job p d Hlog Hget Hparse Hh).
    cbv zeta. rewrite job_delete_eq.
    unfold console_write, after. simpl.
    destruct (hd false (faults w2)); [|destruct (has_job _ d)]; simpl;
      (split; [|reflexivity]);
      erewrite steps_since_app
        by (simpl; rewrite <- app_assoc; reflexivity);
      reflexivity.
  - pose proof (@HandlerFailure Business Jobs h
                  (console_write Info ("Running job with id " ++ input_id job)
                                 w2)
                  p reason d Hh) as Hf.
    rewrite (run_cycle_failure self h w w2 _ job (inr p) _
                               Hlog Hget Hparse Hf).
    cbv zeta. rewrite job_delete_eq.
    unfold console_write, after. simpl.
    destruct (hd false (faults w2)); simpl.
    { split; [|reflexivity].
      erewrite steps_since_app
        by (simpl; rewrite <- app_assoc; reflexivity).
      reflexivity. }
    destruct (has_job _ d); simpl.
    2:{ split; [|reflexivity].
        erewrite steps_since_app
          by (simpl; rewrite <- app_assoc; reflexivity).
        reflexivity. }
    rewrite deadLetters_create_eq. simpl.
    destruct (hd false (tl (faults w2))); [|destruct (has_dead_letter _ _)];
      simpl; (split; [|reflexivity]);
      erewrite steps_since_app
        by (simpl; repeat rewrite <- app_assoc; reflexivity);
      reflexivity.
Qed.

(** X5. A handler that rejects: what is logged, at level error, is the
    handler's reason wrapped once in
    [Error: handling job failed: ...], after the line that announces
    the job. *)
Theorem handler_failure_is_logged_wrapped
        (self : DoctorJobs Business Jobs Input DeadLetters)
        (h : Handler Business Jobs) (w w2 : World Business Jobs)
        (job : Input) (p : Jobs) (reason : JsError) (d : Db Business) :
  log self = Some NodeConsole ->
  getJob self (console_write Info "Attempting to find job" w)
    = (Fulfilled (Some job), w2) ->
  parseJob self job = Normal (inr p) ->
  h p (db w2) = (Rejected reason, d) ->
  console (final (run_cycle self h w))
  = app (console w2)
        [(Info, "Running job with id " ++ input_id job);
         (Err, "An error occured: Error: handling job failed: "
                 ++ Error_toString reason)].
Proof.
  intros Hlog Hget Hparse Hh.
  pose proof (@HandlerFailure Business Jobs h
                (console_write Info ("Running job with id " ++ input_id job)
                               w2)
                p reason d Hh) as Hf.
  rewrite (run_cycle_failure self h w w2 _ job (inr p) _
                             Hlog Hget Hparse Hf).
  cbv zeta. rewrite job_delete_eq.
  unfold console_write, after. simpl.
  destruct (hd false (faults w2)); simpl.
  { now rewrite <- app_assoc. }
  destruct (has_job _ d); simpl.
  2:{ now rewrite <- app_assoc. }
  rewrite deadLetters_create_eq. simpl.
  destruct (hd false (tl (faults w2))); [|destruct (has_dead_letter _ _)];
    simpl; now rewrite <- app_assoc.
Qed.

(** X6. The task [run] starts and drops can only reject on a store
    write: when it is rejected, the last call of the tick is a job
    delete or a dead-letter create that did not go through.  A parse
    error or a handler error never rejects it. *)
Theorem task_rejects_only_on_store_write
        (self : DoctorJobs Business Jobs Input DeadLetters)
        (h : Handler Business Jobs) (w : World Business Jobs)
        (e : JsError) :
  log self = Some NodeConsole ->
  detached (run_cycle self h w) = Some (Rejected e) ->
  exists pre s,
    trace (final (run_cycle self h w)) = (pre ++ [s])%list /\
    ok s = false /\
    exists id, call s = JobDelete id \/
               exists data, call s = DeadLettersCreate id data.
Proof.
  intros Hlog.
  destruct (getJob self (console_write Info "Attempting to find job" w))
    as [[[job|]|e0] w2] eqn:Hget.
  2:{ unfold run_cycle, run, pipe, O_match, bind, ret, log_info.
      rewrite Hlog, Hget. simpl. discriminate. }
  2:{ unfold run_cycle, run, pipe, O_match, bind, ret, log_info.
      rewrite Hlog, Hget. simpl. discriminate. }
  destruct (parseJob self job) as [parsed|e0] eqn:Hparse.
  2:{ rewrite (run_cycle_parse_throw self h w w2 job e0 Hlog Hget Hparse).
      simpl. discriminate. }
  assert (Hquarantine :
            forall err w4,
              Fails h (console_write Info
                         ("Running job with id " ++ input_id job) w2)
                    parsed err w4 ->
              detached (run_cycle self h w) = Some (Rejected e) ->
              exists pre s,
                trace (final (run_cycle self h w)) = (pre ++ [s])%list /\
                ok s = false /\
                exists id, call s = JobDelete id \/
                           exists data, call s = DeadLettersCreate id data).
  { intros err w4 Hf.
    rewrite (run_cycle_failure self h w w2 w4 job parsed err
                               Hlog Hget Hparse Hf).
    cbv zeta. rewrite job_delete_eq.
    destruct (hd false (faults _)); simpl.
    { intros _. do 2 eexists. split; [reflexivity|]. simpl. eauto. }
    destruct (has_job _ _); simpl.
    2:{ intros _. do 2 eexists. split; [reflexivity|]. simpl. eauto. }
    rewrite deadLetters_create_eq.
    destruct (hd false (faults _)); simpl.
    { intros _. do 2 eexists. split; [reflexivity|]. simpl. eauto. }
    destruct (has_dead_letter _ _); simpl; [|discriminate].
    intros _. do 2 eexists. split; [reflexivity|]. simpl. eauto. }
  destruct parsed as [err|p].
  - apply (Hquarantine err _ (ParseFailure h _ err)).
  - destruct (h p (db w2)) as [[[]|reason] d] eqn:Hh.
    + rewrite (run_cycle_success self h w w2 job p d Hlog Hget Hparse Hh).
      cbv zeta. rewrite job_delete_eq.
      destruct (hd false (faults _)); [|destruct (has_job _ _)]; simpl;
        try discriminate;
        intros _; do 2 eexists; (split; [reflexivity|]); simpl; eauto.
    + apply (Hquarantine _ _
               (@HandlerFailure Business Jobs h
                  (console_write Info ("Running job with id " ++ input_id job)
                                 w2)
                  p reason d Hh)).
Qed.

End Runner.

(** ** More on the queue of the README *)

Section Fifo.

Context {Business Jobs DeadLetters : Type} {stringify : Stringify Jobs}.

#[local] Arguments String.append : simpl never.
#[local] Arguments job_delete : simpl never.
#[local] Arguments deadLetters_create : simpl never.
#[local] Arguments console_write : simpl never.

Lemma getOldestJob_eq (w : World Business Jobs) :
  hd false (faults w) = false ->
  getOldestJob w
  = (Fulfilled (oldest (jobTable (db w))), after JobFindFirst true (db w) w).
Proof.
  intros Hup. unfold getOldestJob, bind, job_findFirst, request, ret.
  rewrite Hup. simpl. destruct (oldest _); reflexivity.
Qed.

Lemma mutations_app (l l' : list (Step Business Jobs)) :
  mutations (l ++ l') = (mutations l ++ mutations l')%list.
Proof. unfold mutations. apply filter_app. Qed.

(** X2. With the README's [getJob], a job on which [parseJob] throws
    blocks the queue: however many ticks follow, each one fetches that
    job again and rejects with what was thrown; the database stays as
    it is and no handler call, delete or dead letter is recorded, so
    the jobs behind it are never reached. *)
Theorem throwing_parser_blocks_queue
        (self : DoctorJobs Business Jobs JobRow DeadLetters)
        (h : Handler Business Jobs) (r : JobRow) (e : JsError) (n : nat)
        (w : World Business Jobs) :
  log self = Some NodeConsole ->
  getJob self = getOldestJob ->
  parseJob self r = Throw e ->
  faults w = [] ->
  oldest (jobTable (db w)) = Some r ->
  length (run_cycles self h n w) = n /\
  Forall (fun c => returned c = Rejected e /\ detached c = None /\
                   db (final c) = db w /\
                   mutations (trace (final c)) = mutations (trace w))
         (run_cycles self h n w).
Proof.
  intros Hlog HgetJ Hparse. revert w.
  induction n as [|n IH]; intros w Hup Hold; simpl.
  - split; [reflexivity | constructor].
  - assert (Hget : getJob self (console_write Info "Attempting to find job" w)
                   = (Fulfilled (Some r),
                      after JobFindFirst true (db w)
                            (console_write Info "Attempting to find job" w))).
    { rewrite HgetJ, getOldestJob_eq.
      - unfold console_write at 1. simpl. rewrite Hold. reflexivity.
      - unfold console_write. simpl. rewrite Hup. reflexivity. }
    pose proof (run_cycle_parse_throw self h w _ r e Hlog Hget Hparse) as E.
    assert (Hdb : db (final (run_cycle self h w)) = db w)
      by (rewrite E; reflexivity).
    assert (Hf : faults (final (run_cycle self h w)) = []).
    { rewrite E. unfold console_write, after. simpl. now rewrite Hup. }
    assert (Hm : mutations (trace (final (run_cycle self h w)))
                 = mutations (trace w)).
    { rewrite E. unfold console_write, after. simpl.
      rewrite mutations_app. simpl. apply app_nil_r. }
    destruct (IH (final (run_cycle self h w)) Hf) as [Hlen Hall].
    { rewrite Hdb. exact Hold. }
    split; [now rewrite Hlen|]. constructor.
    + rewrite E at 1 2. simpl. auto.
    + eapply Forall_impl; [|exact Hall].
      intros c (A & B & C & D). rewrite C, D, Hdb, Hm. auto.
Qed.

(** The tick of the oldest job when it parses and the handler is
    fulfilled, with the store up for the fetch: the handler gets the
    parsed job; the delete goes through or not with the store. *)
Lemma run_cycle_oldest_handled
      (self : DoctorJobs Business Jobs JobRow DeadLetters)
      (h : Handler Business Jobs) (w : World Business Jobs) (r : JobRow)
      (p : Jobs) (d : Db Business) :
  log self = Some NodeConsole ->
  getJob self = getOldestJob ->
  hd false (faults w) = false ->
  oldest (jobTable (db w)) = Some r ->
  parseJob self r = Normal (inr p) ->
  h p (db w) = (Fulfilled tt, d) ->
  jobTable d = jobTable (db w) ->
  handled (steps_of self h w) = [p] /\
  faults (final (run_cycle self h w)) = tl (tl (faults w)) /\
  if hd false (tl (faults w))
  then detached (run_cycle self h w) = Some (Rejected connection_error) /\
       db (final (run_cycle self h w)) = d /\
       deleted_ids (steps_of self h w) = []
  else detached (run_cycle self h w) = Some (Fulfilled tt) /\
       jobTable (db (final (run_cycle self h w)))
       = filter (fun x => negb (String.eqb (job_id x) (job_id r)))
                (jobTable (db w)) /\
       business (db (final (run_cycle self h w))) = business d /\
       deleted_ids (steps_of self h w) = [job_id r].
Proof.
  intros Hlog HgetJ Hup Hold Hparse Hh Hd.
  assert (Hget : getJob self (console_write Info "Attempting to find job" w)
                 = (Fulfilled (Some r),
                    after JobFindFirst true (db w)
                          (console_write Info "Attempting to find job" w))).
  { rewrite HgetJ, getOldestJob_eq.
    - unfold console_write at 1. simpl. rewrite Hold. reflexivity.
    - unfold console_write. simpl. exact Hup. }
  assert (Hrow : has_job (job_id r) d = true).
  { unfold has_job. rewrite Hd. apply existsb_exists.
    exists r. split; [now apply oldest_in | apply String.eqb_refl]. }
  unfold steps_of.
  rewrite (run_cycle_success self h w _ r p d Hlog Hget Hparse Hh).
  cbv zeta. rewrite job_delete_eq.
  unfold console_write, after. simpl.
  destruct (hd false (tl (faults w))); simpl.
  - repeat split;
      erewrite steps_since_app
        by (simpl; repeat rewrite <- app_assoc; reflexivity);
      reflexivity.
  - rewrite Hrow. simpl. rewrite Hd.
    repeat split;
      erewrite steps_since_app
        by (simpl; repeat rewrite <- app_assoc; reflexivity);
      reflexivity.
Qed.

(** X7. Delivery is at least once.  When the handler is fulfilled and
    the store is down for the delete that follows, the job stays in the
    queue, and the next tick gives the same job to the handler again;
    only then is the job row deleted. *)
Theorem failed_delete_reruns_handler
        (self : DoctorJobs Business Jobs JobRow DeadLetters)
        (h : Handler Business Jobs) (r : JobRow) (p : Jobs)
        (w : World Business Jobs) (d1 d2 : Db Business) :
  log self = Some NodeConsole ->
  getJob self = getOldestJob ->
  parseJob self r = Normal (inr p) ->
  h p (db w) = (Fulfilled tt, d1) ->
  jobTable d1 = jobTable (db w) ->
  h p d1 = (Fulfilled tt, d2) ->
  jobTable d2 = jobTable d1 ->
  faults w = [false; true] ->
  oldest (jobTable (db w)) = Some r ->
  let c1 := run_cycle self h w in
  let c2 := run_cycle self h (final c1) in
  handled (steps_of self h w) = [p] /\
  detached c1 = Some (Rejected connection_error) /\
  has_job (job_id r) (db (final c1)) = true /\
  handled (steps_of self h (final c1)) = [p] /\
  detached c2 = Some (Fulfilled tt) /\
  has_job (job_id r) (db (final c2)) = false.
Proof.
  intros Hlog HgetJ Hparse Hh1 Hd1 Hh2 Hd2 Hfaults Hold c1 c2. subst c1 c2.
  destruct (run_cycle_oldest_handled self h w r p d1 Hlog HgetJ)
    as (Hh & Hf & Hrest); auto.
  { rewrite Hfaults. reflexivity. }
  rewrite Hfaults in Hf, Hrest. simpl in Hf, Hrest.
  destruct Hrest as (Hdet & Hdb & _).
  assert (Hrow : has_job (job_id r) d1 = true).
  { unfold has_job. rewrite Hd1. apply existsb_exists.
    exists r. split; [now apply oldest_in | apply String.eqb_refl]. }
  destruct (run_cycle_oldest_handled self h (final (run_cycle self h w))
                                     r p d2 Hlog HgetJ)
    as (Hh' & _ & Hrest').
  { rewrite Hf. reflexivity. }
  { rewrite Hdb, Hd1. exact Hold. }
  { exact Hparse. }
  { rewrite Hdb. exact Hh2. }
  { rewrite Hdb. exact Hd2. }
  rewrite Hf in Hrest'. simpl in Hrest'.
  destruct Hrest' as (Hdet' & Htbl' & _).
  repeat split; auto.
  - rewrite Hdb. exact Hrow.
  - unfold has_job. rewrite Htbl'. apply existsb_filter_out.
Qed.

(** X8. From [queue] to the handler.  Work that is fulfilled with
    [(data, job)] on an empty queue, the store being up: [queue] gives
    back [data], and the next tick hands [job] itself to the handler,
    once, and leaves the queue empty.  ([parseJob] reads back what
    [JSON_stringify] wrote for this job; the handler is fulfilled on
    it and leaves the job table alone.) *)
Theorem enqueued_job_reaches_handler (A : Type)
        (self : DoctorJobs Business Jobs JobRow DeadLetters)
        (h : Handler Business Jobs) (fn : Task Business Jobs (A * Jobs))
        (data : A) (job : Jobs) (w w1 : World Business Jobs)
        (d : Db Business) :
  log self = Some NodeConsole ->
  getJob self = getOldestJob ->
  createJob self = job_create ->
  fn w = (Fulfilled (data, job), w1) ->
  jobTable (db w1) = [] ->
  faults w1 = [] ->
  let row := mkJob (cuid (nextId (db w1))) (clock (db w1))
                   (JSON_stringify job) in
  parseJob self row = Normal (inr job) ->
  h job (mkDb [row] (deadLetterTable (db w1)) (business (db w1))
              (S (clock (db w1))) (S (nextId (db w1))))
    = (Fulfilled tt, d) ->
  jobTable d = [row] ->
  exists wq,
    queue self fn w = (Fulfilled data, wq) /\
    jobTable (db wq) = [row] /\
    handled (steps_of self h wq) = [job] /\
    detached (run_cycle self h wq) = Some (Fulfilled tt) /\
    jobTable (db (final (run_cycle self h wq))) = [].
Proof.
  intros Hlog HgetJ Hcreate Hfn Hempty Hup row Hparse Hh Hd. subst row.
  unfold queue, transaction, bind, ret. rewrite Hfn, Hcreate. simpl.
  unfold job_create, request, has_job. rewrite Hup, Hempty. simpl.
  rewrite Hup. simpl.
  eexists. split; [reflexivity|]. split; [reflexivity|].
  match goal with
  | |- context [steps_of self h ?wq] => set (wq0 := wq)
  end.
  destruct (run_cycle_oldest_handled
              self h wq0
              (mkJob (cuid (nextId (db w1))) (clock (db w1))
                     (JSON_stringify job))
              job d Hlog HgetJ)
    as (Hhd & _ & Hrest).
  { unfold wq0, after. simpl. rewrite Hup. reflexivity. }
  { reflexivity. }
  { exact Hparse. }
  { exact Hh. }
  { exact Hd. }
  unfold wq0 at 1, after in Hrest. simpl in Hrest.
  rewrite Hup in Hrest. simpl in Hrest.
  destruct Hrest as (Hdet & Htbl & _).
  repeat split; auto.
  rewrite Htbl. simpl. rewrite String.eqb_refl. reflexivity.
Qed.

Lemma oldest_app_newer (l : list JobRow) (x r : JobRow) :
  oldest l = Some r ->
  Forall (fun y => job_createdAt y <= job_createdAt x) l ->
  oldest (l ++ [x]) = Some r.
Proof.
  revert r. induction l as [|y l IH]; intros r; simpl; [discriminate|].
  intros Hr Hall. inversion Hall as [|y' l' Hy Hl]; subst.
  destruct (oldest l) as [m|] eqn:Hm.
  - rewrite (IH m eq_refl Hl). exact Hr.
  - destruct l as [|z l].
    + simpl. apply Nat.leb_le in Hy. rewrite Hy. exact Hr.
    + simpl in Hm.
      destruct (oldest l); [destruct (Nat.leb _ _)|]; discriminate.
Qed.

(** X12. Enqueueing does not jump the queue.  When no job row is dated
    after the store's clock, the job that was next before a [queue]
    that went through is still the next one after it: the new row goes
    behind the rows that are there. *)
Theorem enqueue_keeps_head (A : Type)
        (self : DoctorJobs Business Jobs JobRow DeadLetters)
        (fn : Task Business Jobs (A * Jobs))
        (data data' : A) (job : Jobs) (r : JobRow)
        (w w1 wq : World Business Jobs) :
  createJob self = job_create ->
  fn w = (Fulfilled (data, job), w1) ->
  queue self fn w = (Fulfilled data', wq) ->
  Forall (fun y => job_createdAt y <= clock (db w1)) (jobTable (db w1)) ->
  oldest (jobTable (db w1)) = Some r ->
  oldest (jobTable (db wq)) = Some r /\
  length (jobTable (db wq)) = S (length (jobTable (db w1))).
Proof.
  intros Hcreate Hfn Hq Hclock Hold.
  unfold queue, transaction, bind, ret in Hq.
  rewrite Hfn, Hcreate in Hq. simpl in Hq.
  unfold job_create, request in Hq.
  destruct (hd false (faults w1)); simpl in Hq; [discriminate|].
  destruct (has_job _ (db w1)); simpl in Hq; [discriminate|].
  destruct (hd false (tl (faults w1))); simpl in Hq; [discriminate|].
  inversion Hq; subst; clear Hq. simpl. split.
  - apply oldest_app_newer; [exact Hold | exact Hclock].
  - rewrite length_app. simpl. lia.
Qed.

End Fifo.

(** ** More on the dead letters *)

Section Listing.

Context {Business Jobs Input : Type}.
Context {input : JobInput Input} {stringify : Stringify Jobs}.

#[local] Arguments String.append : simpl never.
#[local] Arguments job_delete : simpl never.
#[local] Arguments deadLetters_create : simpl never.
#[local] Arguments console_write : simpl never.

(** X9. A quarantined job can be looked up.  After the tick of a job
    that failed, with the store up, [getDeadLetters] (the README's
    [findMany]) lists the dead letters that were there before followed
    by one with the id and the data of the job, and listing changes
    nothing. *)
Theorem quarantined_job_is_listed
        (self : DoctorJobs Business Jobs Input DeadLetterRow)
        (h : Handler Business Jobs) (w w2 w4 : World Business Jobs)
        (job : Input) (parsed : Either JsError Jobs) (err : JsError) :
  log self = Some NodeConsole ->
  getJob self (console_write Info "Attempting to find job" w)
    = (Fulfilled (Some job), w2) ->
  parseJob self job = Normal parsed ->
  Fails h (console_write Info ("Running job with id " ++ input_id job) w2)
        parsed err w4 ->
  getDeadLetters self = deadLetters_findMany ->
  faults w4 = [] ->
  has_job (input_id job) (db w4) = true ->
  has_dead_letter (input_id job) (db w4) = false ->
  exists t w',
    getDeadLetters self (final (run_cycle self h w))
    = (Fulfilled (deadLetterTable (db w4)
                    ++ [mkDeadLetter (input_id job) t (input_data job)])%list,
       w') /\
    db w' = db (final (run_cycle self h w)).
Proof.
  intros Hlog Hget Hparse Hfail Hlist Hup Hrow Hnone.
  rewrite (run_cycle_failure self h w w2 w4 job parsed err
                             Hlog Hget Hparse Hfail).
  cbv zeta. rewrite job_delete_eq.
  unfold console_write at 1 2 3. simpl. rewrite Hup, Hrow. simpl.
  rewrite deadLetters_create_eq. simpl.
  unfold has_dead_letter in *. simpl. rewrite Hup, Hnone. simpl.
  rewrite Hlist. unfold deadLetters_findMany, request. simpl.
  rewrite Hup. simpl.
  do 2 eexists. split; reflexivity.
Qed.

End Listing.

Module ReadmeFacts.
Import Readme.

#[local] Arguments String.append : simpl never.
#[local] Arguments job_delete : simpl never.
#[local] Arguments deadLetters_create : simpl never.
#[local] Arguments console_write : simpl never.

(** X10. The README's [createDeadLetter] followed by its
    [getDeadLetters], the store being up.  On a new id the list ends
    with a row that has the id and the data given; the row's
    [createdAt] is the store's, not the argument's.  On an id that is
    there already the create rejects and the table is unchanged. *)
Theorem createDeadLetter_then_list (row : DeadLetterRow)
        (w : World Shop ParsedJob) :
  hd false (faults w) = false ->
  hd false (tl (faults w)) = false ->
  (has_dead_letter (dl_id row) (db w) = false ->
   exists w',
     bind (createDeadLetter row) (fun _ => getDeadLetters) w
     = (Fulfilled (deadLetterTable (db w)
                     ++ [mkDeadLetter (dl_id row) (clock (db w))
                                      (dl_data row)])%list, w')) /\
  (has_dead_letter (dl_id row) (db w) = true ->
   exists w',
     bind (createDeadLetter row) (fun _ => getDeadLetters) w
     = (Rejected unique_constraint, w') /\
     db w' = db w).
Proof.
  intros Hup1 Hup2.
  unfold bind, createDeadLetter, getDeadLetters.
  rewrite deadLetters_create_eq, Hup1.
  split; intros Hdl; rewrite Hdl.
  - unfold deadLetters_findMany, request. simpl. rewrite Hup2.
    eexists. reflexivity.
  - eexists. split; reflexivity.
Qed.


(** On a job whose [type] is [reticulateSplines] the README's handler
    throws, whatever else the job holds, and writes nothing. *)
Lemma handleParsedJobs_reticulateSplines (job : ParsedJob) (d : Db Shop) :
  Json.prop "type" job = Some (Json.JString "reticulateSplines") ->
  handleParsedJobs job d
  = (Rejected (new_Error "reticulateSplines is not implemented yet!"), d).
Proof.
  intros Htype. unfold handleParsedJobs.
  destruct job; try discriminate Htype.
  rewrite Htype. reflexivity.
Qed.

(** X13. The README's handler and [getJob], with whatever [parseJob],
    on a job whose parsed value has the type [reticulateSplines], oldest
    in the queue, the store up and no dead letter of its id: the
    handler throws, the tick logs the wrapped error, the job row goes
    and a dead letter with the job's id and payload comes; the clients
    and tokens are untouched and [run]'s promise is fulfilled. *)
Theorem reticulateSplines_is_dead_lettered
        (parse : JobRow -> Completion (Either JsError ParsedJob))
        (r : JobRow) (job : ParsedJob) (w : World Shop ParsedJob) :
  faults w = [] ->
  oldest (jobTable (db w)) = Some r ->
  parse r = Normal (inr job) ->
  Json.prop "type" job = Some (Json.JString "reticulateSplines") ->
  has_dead_letter (job_id r) (db w) = false ->
  let c := run_cycle (constructor (options parse (Some NodeConsole)))
                     handleParsedJobs w in
  returned c = Fulfilled tt /\
  detached c = Some (Fulfilled tt) /\
  has_job (job_id r) (db (final c)) = false /\
  deadLetterTable (db (final c))
  = (deadLetterTable (db w)
       ++ [mkDeadLetter (job_id r) (S (clock (db w))) (job_data r)])%list /\
  business (db (final c)) = business (db w) /\
  console (final c)
  = app (console w)
        [(Info, "Attempting to find job");
         (Info, "Running job with id " ++ job_id r);
         (Err, "An error occured: Error: handling job failed: Error: reticulateSplines is not implemented yet!")].
Proof.
  intros Hup Hold Hparse Htype Hnone c. subst c.
  assert (Hget : Readme.getJob
                   (console_write Info "Attempting to find job" w)
                 = (Fulfilled (Some r),
                    after JobFindFirst true (db w)
                          (console_write Info "Attempting to find job" w))).
  { unfold Readme.getJob. rewrite getOldestJob_eq.
    - unfold console_write at 1. simpl. rewrite Hold. reflexivity.
    - unfold console_write. simpl. rewrite Hup. reflexivity. }
  assert (Hrow : has_job (job_id r) (db w) = true).
  { unfold has_job. apply existsb_exists.
    exists r. split; [now apply oldest_in | apply String.eqb_refl]. }
  pose proof (@HandlerFailure Shop ParsedJob handleParsedJobs
                (console_write Info ("Running job with id " ++ input_id r)
                   (after JobFindFirst true (db w)
                      (console_write Info "Attempting to find job" w)))
                job
                (new_Error "reticulateSplines is not implemented yet!")
                (db w)
                (handleParsedJobs_reticulateSplines job (db w) Htype)) as Hf.
  rewrite (run_cycle_failure
             (constructor (options parse (Some NodeConsole)))
             handleParsedJobs w _ _ r (inr job) _
             eq_refl Hget Hparse Hf).
  cbv zeta. rewrite job_delete_eq.
  unfold console_write, after. simpl. rewrite Hup. simpl. rewrite Hrow.
  rewrite deadLetters_create_eq. simpl.
  unfold has_dead_letter in *. simpl. rewrite Hnone. simpl.
  repeat split.
  - unfold has_job. simpl. apply existsb_filter_out.
  - repeat rewrite <- app_assoc. reflexivity.
Qed.

(** The README's handler never writes to the job table or to the
    dead letters. *)
Lemma handleParsedJobs_keeps_tables (job : ParsedJob) (d : Db Shop) :
  jobTable (snd (handleParsedJobs job d)) = jobTable d /\
  deadLetterTable (snd (handleParsedJobs job d)) = deadLetterTable d.
Proof.
  assert (Hsend : forall c,
             jobTable (snd (sendLoginLink c d)) = jobTable d /\
             deadLetterTable (snd (sendLoginLink c d)) = deadLetterTable d).
  { intros [[| | | c | |]|]; simpl; auto.
    destruct (existsb _ _); simpl; auto. }
  unfold handleParsedJobs.
  destruct job; simpl; auto;
    repeat match goal with
           | |- context [match ?x with _ => _ end] =>
               destruct x; simpl; auto
           end.
Qed.

End ReadmeFacts.

(** ** What a tick leaves alone *)

Section Footprint.

Context {Business Jobs Input DeadLetters : Type}.
Context {input : JobInput Input} {stringify : Stringify Jobs}.

#[local] Arguments String.append : simpl never.
#[local] Arguments job_delete : simpl never.
#[local] Arguments deadLetters_create : simpl never.
#[local] Arguments console_write : simpl never.

(** X14. The footprint of a tick, for a handler that leaves the two
    tables alone.  When no job was fetched the tables are as [getJob]
    left them.  When a job was fetched, the job table is as it was or
    has lost the rows of that job's id, and the dead-letter table is as
    it was or has one more row, with the id and data of that job: a
    tick never adds a job row, never removes a dead letter, and never
    touches the rows of another job. *)
Theorem tick_touches_only_its_job
        (self : DoctorJobs Business Jobs Input DeadLetters)
        (h : Handler Business Jobs) (w w2 : World Business Jobs)
        (g : Settled (option Input)) :
  log self = Some NodeConsole ->
  getJob self (console_write Info "Attempting to find job" w) = (g, w2) ->
  (forall p d, jobTable (snd (h p d)) = jobTable d /\
               deadLetterTable (snd (h p d)) = deadLetterTable d) ->
  let F := db (final (run_cycle self h w)) in
  match g with
  | Fulfilled (Some job) =>
      (jobTable F = jobTable (db w2) \/
       jobTable F
       = filter (fun r => negb (String.eqb (job_id r) (input_id job)))
                (jobTable (db w2))) /\
      (deadLetterTable F = deadLetterTable (db w2) \/
       exists t,
         deadLetterTable F
         = (deadLetterTable (db w2)
              ++ [mkDeadLetter (input_id job) t (input_data job)])%list)
  | _ => jobTable F = jobTable (db w2) /\
         deadLetterTable F = deadLetterTable (db w2)
  end.
Proof.
  intros Hlog Hget Hkeep F. subst F.
  destruct g as [[job|]|e0].
  2:{ unfold run_cycle, run, pipe, O_match, bind, ret, log_info.
      rewrite Hlog, Hget. simpl. auto. }
  2:{ unfold run_cycle, run, pipe, O_match, bind, ret, log_info.
      rewrite Hlog, Hget. simpl. auto. }
  destruct (parseJob self job) as [parsed|e0] eqn:Hparse.
  2:{ rewrite (run_cycle_parse_throw self h w w2 job e0 Hlog Hget Hparse).
      simpl. auto. }
  assert (Hquarantine :
            forall err w4,
              Fails h (console_write Info
                         ("Running job with id " ++ input_id job) w2)
                    parsed err w4 ->
              jobTable (db w4) = jobTable (db w2) ->
              deadLetterTable (db w4) = deadLetterTable (db w2) ->
              (jobTable (db (final (run_cycle self h w)))
               = jobTable (db w2) \/
               jobTable (db (final (run_cycle self h w)))
               = filter (fun r => negb (String.eqb (job_id r) (input_id job)))
                        (jobTable (db w2))) /\
              (deadLetterTable (db (final (run_cycle self h w)))
               = deadLetterTable (db w2) \/
               exists t,
                 deadLetterTable (db (final (run_cycle self h w)))
                 = (deadLetterTable (db w2)
                      ++ [mkDeadLetter (input_id job) t (input_data job)])%list)).
  { intros err w4 Hf Hj Hd.
    rewrite (run_cycle_failure self h w w2 w4 job parsed err
                               Hlog Hget Hparse Hf).
    cbv zeta. rewrite job_delete_eq.
    unfold console_write at 1 2 3. simpl.
    destruct (hd false (faults w4)); simpl; [auto|].
    destruct (has_job _ (db w4)); simpl; [|auto].
    rewrite deadLetters_create_eq. simpl.
    destruct (hd false (tl (faults w4))); simpl;
      [rewrite Hj, Hd; auto|].
    unfold has_dead_letter. simpl.
    destruct (existsb _ (deadLetterTable (db w4))); simpl;
      rewrite Hj, Hd; eauto. }
  destruct parsed as [err|p].
  - apply (Hquarantine err _ (ParseFailure h _ err)); reflexivity.
  - destruct (h p (db w2)) as [[[]|reason] d] eqn:Hh;
      destruct (Hkeep p (db w2)) as [Hj Hd]; rewrite Hh in Hj, Hd;
      simpl in Hj, Hd.
    + rewrite (run_cycle_success self h w w2 job p d Hlog Hget Hparse Hh).
      cbv zeta. rewrite job_delete_eq.
      unfold console_write at 1 2 3. simpl.
      destruct (hd false (faults w2)); [|destruct (has_job _ d)]; simpl;
        rewrite ?Hj, ?Hd; auto.
    + apply (Hquarantine _ _
               (@HandlerFailure Business Jobs h
                  (console_write Info ("Running job with id " ++ input_id job)
                                 w2)
                  p reason d Hh)); simpl; assumption.
Qed.

End Footprint.

(** ** More of the README's instance at work *)

Module MoreScenarios.
Import Readme.

(** X1 at work: the README's [parseJob] on a payload that is not
    JSON. *)
Lemma throwing_parser_rejects_run_witness :
  let c := run_cycle doctorJob handleParsedJobs (world_of [garbled] [] []) in
  returned c = Rejected (mkError "SyntaxError" "Unexpected token in JSON") /\
  detached c = None /\
  db (final c) = db (world_of [garbled] [] []) /\
  steps_since (fetched (world_of [garbled] [] [])) (final c) = [].
Proof.
  exact (throwing_parser_rejects_run doctorJob handleParsedJobs
           (world_of [garbled] [] []) (fetched (world_of [garbled] [] []))
           garbled (mkError "SyntaxError" "Unexpected token in JSON")
           eq_refl eq_refl eq_refl).
Defined.

(** X2 at work: the same payload in front of another job, three
    ticks. *)
Lemma throwing_parser_blocks_queue_witness :
  Forall (fun c => returned c
                   = Rejected (mkError "SyntaxError" "Unexpected token in JSON")
                   /\ detached c = None
                   /\ db (final c) = db (world_of [unknown; garbled] [] [])
                   /\ mutations (trace (final c)) = [])
         (run_cycles doctorJob handleParsedJobs 3
                     (world_of [unknown; garbled] [] [])).
Proof.
  apply (throwing_parser_blocks_queue doctorJob handleParsedJobs garbled
           (mkError "SyntaxError" "Unexpected token in JSON") 3
           (world_of [unknown; garbled] [] [])
           eq_refl eq_refl eq_refl eq_refl eq_refl).
Defined.

(** X3 at work: the strict parser on the unknown job type. *)
Lemma parse_failure_skips_handler_witness :
  let c := run_cycle strictDoctorJob handleParsedJobs
                     (world_of [unknown] [] []) in
  handled (steps_since (fetched (world_of [unknown] [] [])) (final c)) = [] /\
  console (final c)
  = [(Info, "Attempting to find job");
     (Info, "Running job with id j4");
     (Err, "An error occured: Error: unknown job type")].
Proof.
  exact (parse_failure_skips_handler strictDoctorJob handleParsedJobs
           (world_of [unknown] [] []) (fetched (world_of [unknown] [] []))
           unknown (new_Error "unknown job type")
           eq_refl eq_refl eq_refl).
Defined.

(** X4 at work: the login token stays although the delete fails. *)
Lemma handler_writes_are_kept_witness :
  loginTokens
    (business
       (db (final (run_cycle doctorJob handleParsedJobs
                             (world_of [login_abc] [] [false; true])))))
  = ["abc"].
Proof.
  destruct (handler_writes_are_kept doctorJob handleParsedJobs
              (world_of [login_abc] [] [false; true])
              (fetched (world_of [login_abc] [] [false; true]))
              login_abc (SendClientLoginLink "abc") (Fulfilled tt)
              (snd (handleParsedJobs (SendClientLoginLink "abc")
                      (db (world_of [login_abc] [] []))))
              eq_refl eq_refl eq_refl eq_refl) as [_ Hb].
  rewrite Hb. reflexivity.
Defined.

(** X5 at work: the splines job. *)
Lemma handler_failure_is_logged_wrapped_witness :
  console (final (run_cycle doctorJob handleParsedJobs
                            (world_of [splines] [] [])))
  = [(Info, "Attempting to find job");
     (Info, "Running job with id j2");
     (Err, "An error occured: Error: handling job failed: Error: reticulateSplines is not implemented yet!")].
Proof.
  exact (handler_failure_is_logged_wrapped doctorJob handleParsedJobs
           (world_of [splines] [] []) (fetched (world_of [splines] [] []))
           splines (ReticulateSplines "hull")
           (new_Error "reticulateSplines is not implemented yet!")
           (db (world_of [splines] [] []))
           eq_refl eq_refl eq_refl eq_refl).
Defined.

(** X6 at work: the store down for the dead-letter create. *)
Lemma task_rejects_only_on_store_write_witness :
  exists pre s,
    trace (final (run_cycle strictDoctorJob handleParsedJobs
                            (world_of [unknown] [] [false; false; true])))
    = (pre ++ [s])%list /\
    ok s = false /\
    exists id, call s = JobDelete id \/
               exists data, call s = DeadLettersCreate id data.
Proof.
  exact (task_rejects_only_on_store_write strictDoctorJob handleParsedJobs
           (world_of [unknown] [] [false; false; true]) connection_error
           eq_refl eq_refl).
Defined.

(** X7 at work: the login link is sent twice. *)
Lemma failed_delete_reruns_handler_witness :
  let w := world_of [login_abc] [] [false; true] in
  let c1 := run_cycle doctorJob handleParsedJobs w in
  let c2 := run_cycle doctorJob handleParsedJobs (final c1) in
  handled (steps_of doctorJob handleParsedJobs w)
    = [SendClientLoginLink "abc"] /\
  handled (steps_of doctorJob handleParsedJobs (final c1))
    = [SendClientLoginLink "abc"] /\
  loginTokens (business (db (final c2))) = ["abc"; "abc"] /\
  jobTable (db (final c2)) = [].
Proof.
  intros w c1 c2.
  destruct (failed_delete_reruns_handler doctorJob handleParsedJobs
              login_abc (SendClientLoginLink "abc") w
              (snd (handleParsedJobs (SendClientLoginLink "abc") (db w)))
              (snd (handleParsedJobs (SendClientLoginLink "abc")
                      (snd (handleParsedJobs (SendClientLoginLink "abc")
                              (db w)))))
              eq_refl eq_refl eq_refl eq_refl eq_refl eq_refl eq_refl
              eq_refl eq_refl) as (H1 & _ & _ & H2 & _ & _).
  split; [exact H1|]. split; [exact H2|]. split; reflexivity.
Defined.

(** X8 at work: signing a client up, then one tick. *)
Lemma enqueued_job_reaches_handler_witness :
  exists wq,
    queue doctorJob (signUp "xyz" "xyz@example.org") (world_of [] [] [])
    = (Fulfilled "xyz", wq) /\
    handled (steps_of doctorJob handleParsedJobs wq)
    = [SendClientLoginLink "xyz"] /\
    jobTable (db (final (run_cycle doctorJob handleParsedJobs wq))) = [].
Proof.
  destruct (@enqueued_job_reaches_handler
              Shop ParsedJob DeadLetterRow stringify_ParsedJob
              string doctorJob handleParsedJobs
              (signUp "xyz" "xyz@example.org") "xyz"
              (SendClientLoginLink "xyz") (world_of [] [] [])
              (snd (signUp "xyz" "xyz@example.org" (world_of [] [] [])))
              (snd (handleParsedJobs (SendClientLoginLink "xyz")
                      (db (snd (queue doctorJob
                                      (signUp "xyz" "xyz@example.org")
                                      (world_of [] [] []))))))
              eq_refl eq_refl eq_refl eq_refl eq_refl eq_refl
              eq_refl eq_refl eq_refl)
    as (wq & Hq & _ & Hh & _ & Hempty).
  exists wq. split; [exact Hq|]. split; [exact Hh | exact Hempty].
Defined.

(** X9 at work: the unknown job type, then the list of dead letters. *)
Lemma quarantined_job_is_listed_witness :
  exists t w',
    Readme.getDeadLetters
      (final (run_cycle strictDoctorJob handleParsedJobs
                        (world_of [unknown] [] [])))
    = (Fulfilled [mkDeadLetter "j4" t "{}"], w').
Proof.
  destruct (quarantined_job_is_listed strictDoctorJob handleParsedJobs
              (world_of [unknown] [] []) (fetched (world_of [unknown] [] []))
              (started (world_of [unknown] [] []) unknown) unknown
              (inl (new_Error "unknown job type"))
              (new_Error "unknown job type")
              eq_refl eq_refl eq_refl
              ltac:(exact (ParseFailure handleParsedJobs
                             (started (world_of [unknown] [] []) unknown)
                             (new_Error "unknown job type")))
              eq_refl eq_refl eq_refl eq_refl)
    as (t & w' & Hlist & _).
  exists t, w'. exact Hlist.
Defined.

(** X10 at work: a dead letter written by hand, on a new id. *)
Lemma createDeadLetter_then_list_witness :
  exists w',
    bind (createDeadLetter (mkDeadLetter "j9" 0 "payload"))
         (fun _ => Readme.getDeadLetters) (world_of [] [] [])
    = (Fulfilled [mkDeadLetter "j9" 10 "payload"], w').
Proof.
  destruct (ReadmeFacts.createDeadLetter_then_list
              (mkDeadLetter "j9" 0 "payload") (world_of [] [] [])
              eq_refl eq_refl) as [Hnew _].
  exact (Hnew eq_refl).
Defined.


(** X12 at work: a sign-up behind two waiting jobs. *)
Lemma enqueue_keeps_head_witness :
  oldest (jobTable
            (db (snd (queue doctorJob (signUp "xyz" "xyz@example.org")
                            (world_of [splines; login_abc] [] [])))))
  = Some login_abc.
Proof.
  destruct (enqueue_keeps_head string doctorJob
              (signUp "xyz" "xyz@example.org") "xyz" "xyz"
              (SendClientLoginLink "xyz") login_abc
              (world_of [splines; login_abc] [] [])
              (snd (signUp "xyz" "xyz@example.org"
                           (world_of [splines; login_abc] [] [])))
              (snd (queue doctorJob (signUp "xyz" "xyz@example.org")
                          (world_of [splines; login_abc] [] [])))
              eq_refl eq_refl eq_refl) as [Hhead _].
  - repeat constructor; simpl; lia.
  - reflexivity.
  - exact Hhead.
Defined.

(** X13 at work: the splines job of the specification's scenario. *)
Lemma reticulateSplines_is_dead_lettered_witness :
  deadLetterTable
    (db (final (run_cycle doctorJob handleParsedJobs
                          (world_of [splines] [] []))))
  = [mkDeadLetter "j2" 11 (JSON_stringify (ReticulateSplines "hull"))].
Proof.
  destruct (ReadmeFacts.reticulateSplines_is_dead_lettered
              Readme.parseJob splines (ReticulateSplines "hull")
              (world_of [splines] [] [])
              eq_refl eq_refl eq_refl eq_refl eq_refl)
    as (_ & _ & _ & Hdl & _).
  exact Hdl.
Defined.

(** X14 at work: the splines job in front of the unknown job type;
    the other row is not touched. *)
Lemma tick_touches_only_its_job_witness :
  let F := db (final (run_cycle strictDoctorJob handleParsedJobs
                                (world_of [splines; unknown] [] []))) in
  (jobTable F = [splines; unknown] \/ jobTable F = [unknown]) /\
  (deadLetterTable F = [] \/
   exists t,
     deadLetterTable F
     = [mkDeadLetter "j2" t (JSON_stringify (ReticulateSplines "hull"))]).
Proof.
  exact (tick_touches_only_its_job strictDoctorJob handleParsedJobs
           (world_of [splines; unknown] [] [])
           (fetched (world_of [splines; unknown] [] []))
           (Fulfilled (Some splines)) eq_refl eq_refl
           ReadmeFacts.handleParsedJobs_keeps_tables).
Defined.

(** X15 at work: three jobs, the oldest last in the table. *)
Lemma ticks_resolve_oldest_first_witness :
  delivered doctorJob handleParsedJobs 3
            (world_of [splines; unknown; login_abc] [] [])
  = [(["j1"], [SendClientLoginLink "abc"]);
     (["j2"], [ReticulateSplines "hull"]);
     (["j4"], [Json.JObject []])] /\
  jobTable (db (after_cycles doctorJob handleParsedJobs 3
                             (world_of [splines; unknown; login_abc] [] [])))
    = [].
Proof.
  destruct (ticks_resolve_oldest_first doctorJob handleParsedJobs
              [login_abc; splines; unknown]
              (world_of [splines; unknown; login_abc] [] []))
    as (Horder & _ & Hempty).
  - reflexivity.
  - reflexivity.
  - repeat constructor; eexists; reflexivity.
  - intros p d. apply ReadmeFacts.handleParsedJobs_keeps_tables.
  - reflexivity.
  - repeat constructor; simpl; intuition discriminate.
  - repeat constructor; unfold older; simpl; lia.
  - apply (Permutation_cons_append [splines; unknown] login_abc).
  - split; [exact Horder | exact Hempty].
Defined.

End MoreScenarios.
